(** * SuPA: command-line entry point, test fixtures and the reservation core

    A shallow embedding of [src/supa/main.py] and [tests/conftest.py] of
    SuPA (the SURF ultimate Provider Agent), followed by the properties
    that the design document states about them.

    Python objects with attributes ([settings]) are attribute stores
    ([gmap string PyVal]); code with side effects runs in a small state and
    exception monad over the process state. *)

From Stdlib Require Import ZArith.
From stdpp Require Import gmap strings list.

Open Scope Z_scope.
Open Scope string_scope.
Open Scope list_scope.

(** ** Python values and the process state *)

(** The values that the entry point stores in attributes: [None], an [int],
    a [str] and a [pathlib.Path] (kept as the string it was built from). *)
Inductive PyVal : Type :=
  | VNone
  | VInt (z : Z)
  | VStr (s : string)
  | VPath (p : string).

#[global] Instance PyVal_eq_dec : EqDecision PyVal.
Proof. solve_decision. Defined.

(** An object seen through its attributes, as [settings] is. *)
Abbreviation AttrStore := (gmap string PyVal).

(** [CommonOptionsState] of main.py: a dataclass of three optional fields,
    all [None] by default. *)
Record CommonOptionsState : Type := mkCommonOptionsState {
  database_file : option string;          (* Optional[Path] *)
  scheduler_max_workers : option Z;       (* Optional[int] *)
  domain_name : option string             (* Optional[str] *)
}.

#[global] Instance CommonOptionsState_eq_dec : EqDecision CommonOptionsState.
Proof. solve_decision. Defined.

(** [CommonOptionsState()] *)
Definition CommonOptionsState_default : CommonOptionsState :=
  mkCommonOptionsState None None None.

(** What the program does to the outside, in program order.  [EvSetAttr] is
    a write to an attribute of the global [settings]; [EvInitApp] is the call
    [init_app()], which takes no argument: the global [settings] is its only
    configuration input and the event records the store it is called on. *)
Inductive Event : Type :=
  | EvSetAttr (name : string) (v : PyVal)
  | EvInitApp (visible : AttrStore)
  | EvThreadPoolExecutor (max_workers : PyVal)
  | EvGrpcServer
  | EvLogBind (key : string) (v : PyVal)
  | EvConnectionProviderService
  | EvAddServicer
  | EvAddInsecurePort (address : PyVal)
  | EvServerStart
  | EvLogInfo (msg : string)
  | EvWaitForTermination.

#[global] Instance Event_eq_dec : EqDecision Event.
Proof. solve_decision. Defined.

(** The process state: the object held by the Click context ([ctx.obj],
    [None] until [ensure_object] creates it), the module-level [settings]
    object and the effects so far. *)
Record World : Type := mkWorld {
  ctx_obj : option CommonOptionsState;
  settings : AttrStore;
  trace : list Event
}.

Inductive exn : Type :=
  | AttributeError (name : string)
  | ValueError
  | TypeError
  | RuntimeError (msg : string)
  | Exception (msg : string).

Inductive outcome (A : Type) : Type :=
  | Ok (a : A)
  | Raise (e : exn).
Arguments Ok {A} a.
Arguments Raise {A} e.

(** ** The state and exception monad *)

Definition M (A : Type) : Type := World -> outcome A * World.

Definition ret {A} (a : A) : M A := fun w => (Ok a, w).

(** An exception ends the computation; the writes made so far stay. *)
Definition bind {A B} (k : A -> M B) (m : M A) : M B :=
  fun w =>
    match m w with
    | (Ok a, w') => k a w'
    | (Raise e, w') => (Raise e, w')
    end.

#[global] Instance M_ret : MRet M := @ret.
#[global] Instance M_bind : MBind M := @bind.

Definition emit (e : Event) : M unit :=
  fun w => (Ok tt, mkWorld (ctx_obj w) (settings w) (trace w ++ [e])).

(** [settings.name = v] *)
Definition setattr (name : string) (v : PyVal) : M unit :=
  fun w =>
    (Ok tt, mkWorld (ctx_obj w) (<[name := v]> (settings w))
                    (trace w ++ [EvSetAttr name v])).

(** [settings.name]: a missing attribute raises [AttributeError]. *)
Definition getattr (name : string) : M PyVal :=
  fun w =>
    match settings w !! name with
    | Some v => (Ok v, w)
    | None => (Raise (AttributeError name), w)
    end.

(** [ctx.ensure_object(CommonOptionsState)]: the object of the context, or a
    new default one that the context keeps from then on. *)
Definition ensure_object : M CommonOptionsState :=
  fun w =>
    match ctx_obj w with
    | Some cos => (Ok cos, w)
    | None =>
        (Ok CommonOptionsState_default,
         mkWorld (Some CommonOptionsState_default) (settings w) (trace w))
    end.

(** A call into a library that raises, or else has the effect [e]. *)
Definition call (r : outcome unit) (e : Event) : M unit :=
  fun w =>
    match r with
    | Ok _ => emit e w
    | Raise x => (Raise x, w)
    end.

(** The test on [max_workers] at the start of
    [futures.ThreadPoolExecutor]: [None] stands for the default size, a
    number must be greater than 0 ([ValueError] otherwise), and a value
    that cannot be compared with 0 gives a [TypeError]. *)
Definition max_workers_check (max_workers : PyVal) : outcome unit :=
  match max_workers with
  | VNone => Ok tt
  | VInt z => if bool_decide (z <= 0) then Raise ValueError else Ok tt
  | VStr _ | VPath _ => Raise TypeError
  end.

(** [futures.ThreadPoolExecutor(max_workers=v)] *)
Definition ThreadPoolExecutor (max_workers : PyVal) : M unit :=
  call (max_workers_check max_workers) (EvThreadPoolExecutor max_workers).

(** An assignment to a field of the object that the context holds. *)
Definition set_cos (cos : CommonOptionsState) : M unit :=
  fun w => (Ok tt, mkWorld (Some cos) (settings w) (trace w)).

Definition exec {A} (m : M A) (w : World) : World := snd (m w).
Definition result {A} (m : M A) (w : World) : outcome A := fst (m w).

(** ** main.py *)

Module Main.

(** [database_file_option.callback] *)
Definition database_file_option_callback (value : option string)
  : M (option string) :=
  cos ← ensure_object;
  match value with
  | Some v =>
      let cos' := mkCommonOptionsState
                    (Some v) (scheduler_max_workers cos) (domain_name cos) in
      set_cos cos' ;;
      setattr "database_file" (VPath v) ;;
      mret value
  | None => mret value
  end.

(** [scheduler_max_workers_option.callback] *)
Definition scheduler_max_workers_option_callback (value : option Z)
  : M (option Z) :=
  cos ← ensure_object;
  match value with
  | Some v =>
      let cos' := mkCommonOptionsState
                    (database_file cos) (Some v) (domain_name cos) in
      set_cos cos' ;;
      setattr "scheduler_max_workers" (VInt v) ;;
      mret value
  | None => mret value
  end.

(** [domain_name_option.callback] *)
Definition domain_name_option_callback (value : option string)
  : M (option string) :=
  cos ← ensure_object;
  match value with
  | Some v =>
      let cos' := mkCommonOptionsState
                    (database_file cos) (scheduler_max_workers cos) (Some v) in
      set_cos cos' ;;
      setattr "domain_name" (VStr v) ;;
      mret value
  | None => mret value
  end.

(** *** The Click declarations *)

(** A declared option: its name and whether its value is passed to the
    decorated function ([expose_value], [True] unless given). *)
Record ClickOption : Type := mkClickOption {
  opt_name : string;
  expose_value : bool
}.

(** [click.option(...)(f)] appends the option to the parameters that [f]
    has collected so far. *)
Definition click_option (o : ClickOption) (f : list ClickOption)
  : list ClickOption := f ++ [o].

Definition database_file_option (f : list ClickOption) : list ClickOption :=
  click_option (mkClickOption "--database-file" false) f.

Definition scheduler_max_workers_option (f : list ClickOption)
  : list ClickOption :=
  click_option (mkClickOption "--scheduler-max-workers" false) f.

Definition domain_name_option (f : list ClickOption) : list ClickOption :=
  click_option (mkClickOption "--domain-name" false) f.

(** [common_options] *)
Definition common_options (f : list ClickOption) : list ClickOption :=
  let f := database_file_option f in
  let f := scheduler_max_workers_option f in
  let f := domain_name_option f in
  f.

(** The decorators of [serve], innermost first; [cli.command] turns the
    collected parameters round, which gives the order of declaration. *)
Definition serve_params : list ClickOption :=
  reverse
    (click_option (mkClickOption "--grpc-max-workers" true)
       (click_option (mkClickOption "--grpc-insecure-address-port" true)
          (common_options []))).

(** The options whose values reach the decorated function as arguments. *)
Definition exposed (ps : list ClickOption) : list string :=
  opt_name <$> filter (fun o => expose_value o = true) ps.

(** *** The sub-command [serve] *)

Section WithInitApp.

(** [init_app] is imported from the package [supa], whose source is not
    part of this development.  It is called without arguments; what it does
    is taken as a parameter: from the global [settings] it finds, whether it
    returns or raises and the [settings] it leaves. *)
Variable init_app_body : AttrStore -> outcome unit * AttrStore.

(** [server.add_insecure_port] belongs to gRPC and depends on the machine:
    whether the address it is given can be bound, or the call raises, is a
    parameter as well. *)
Variable add_insecure_port_body : PyVal -> outcome unit.

Definition init_app : M unit :=
  fun w =>
    let '(r, s') := init_app_body (settings w) in
    (r, mkWorld (ctx_obj w) s' (trace w ++ [EvInitApp (settings w)])).

(** [server.add_insecure_port(address)] *)
Definition add_insecure_port (address : PyVal) : M unit :=
  call (add_insecure_port_body address) (EvAddInsecurePort address).

(** [serve].  The calls into [futures], [grpc] and the logger are recorded
    with the arguments they receive, once they have gone through. *)
Definition serve (grpc_max_workers : Z) (grpc_insecure_address_port : string)
  : M unit :=
  setattr "grpc_max_workers" (VInt grpc_max_workers) ;;
  setattr "grpc_insecure_address_port" (VStr grpc_insecure_address_port) ;;
  init_app ;;
  n ← getattr "grpc_max_workers";
  ThreadPoolExecutor n ;;
  emit EvGrpcServer ;;
  n' ← getattr "grpc_max_workers";
  emit (EvLogBind "grpc_max_workers" n') ;;
  emit EvConnectionProviderService ;;
  emit EvAddServicer ;;
  a ← getattr "grpc_insecure_address_port";
  add_insecure_port a ;;
  a' ← getattr "grpc_insecure_address_port";
  emit (EvLogBind "grpc_insecure_address_port" a') ;;
  emit EvServerStart ;;
  emit (EvLogInfo "Started Connection Provider gRPC Service.") ;;
  emit EvWaitForTermination.

(** *** An invocation of [supa serve]

    Before it calls the function of the sub-command, Click calls the
    callback of every option that has one, with the value of the option:
    the one given on the command line, else the default of the option, else
    [None].  The order is the order on the command line, then the order of
    declaration; it is an input here. *)
Inductive CommonOption : Type :=
  | OptDatabaseFile (value : option string)
  | OptSchedulerMaxWorkers (value : option Z)
  | OptDomainName (value : option string).

Definition run_callback (o : CommonOption) : M unit :=
  match o with
  | OptDatabaseFile v => database_file_option_callback v ;; mret tt
  | OptSchedulerMaxWorkers v => scheduler_max_workers_option_callback v ;; mret tt
  | OptDomainName v => domain_name_option_callback v ;; mret tt
  end.

Fixpoint process_params (ps : list CommonOption) : M unit :=
  match ps with
  | [] => mret tt
  | p :: ps => run_callback p ;; process_params ps
  end.

Definition invoke_serve (ps : list CommonOption)
    (grpc_max_workers : Z) (grpc_insecure_address_port : string) : M unit :=
  process_params ps ;; serve grpc_max_workers grpc_insecure_address_port.

End WithInitApp.

End Main.

(** ** Vocabulary of the statements about main.py *)

Module MainSpec.
Import Main.

(** The [CommonOptionsState] that a callback works on: the one of the
    context, or the default one that [ensure_object] makes. *)
Definition cos_of (w : World) : CommonOptionsState :=
  default CommonOptionsState_default (ctx_obj w).

(** The attribute of [settings] that an option value is written to; an
    option whose value is [None] writes nothing. *)
Definition option_writes (o : CommonOption) : list (string * PyVal) :=
  match o with
  | OptDatabaseFile (Some v) => [("database_file", VPath v)]
  | OptSchedulerMaxWorkers (Some v) => [("scheduler_max_workers", VInt v)]
  | OptDomainName (Some v) => [("domain_name", VStr v)]
  | _ => []
  end.

Definition parsed_writes (ps : list CommonOption) : list (string * PyVal) :=
  ps ≫= option_writes.

(** The two assignments at the start of [serve]. *)
Definition serve_writes (grpc_max_workers : Z)
    (grpc_insecure_address_port : string) : list (string * PyVal) :=
  [("grpc_max_workers", VInt grpc_max_workers);
   ("grpc_insecure_address_port", VStr grpc_insecure_address_port)].

Definition apply_writes (ws : list (string * PyVal)) (s : AttrStore)
  : AttrStore :=
  foldl (fun s kv => <[kv.1 := kv.2]> s) s ws.

Definition write_event (kv : string * PyVal) : Event := EvSetAttr kv.1 kv.2.

Definition is_write (e : Event) : bool :=
  match e with EvSetAttr _ _ => true | _ => false end.

(** The events by which an object other than [settings] is made or used. *)
Definition is_construction (e : Event) : bool :=
  match e with
  | EvThreadPoolExecutor _ | EvGrpcServer | EvConnectionProviderService
  | EvAddServicer | EvAddInsecurePort _ | EvServerStart => true
  | _ => false
  end.

(** What [serve] has made when the thread pool is there, and what it has
    done when the port is there. *)
Definition pool_made (v : PyVal) : list Event :=
  [EvThreadPoolExecutor v; EvGrpcServer; EvLogBind "grpc_max_workers" v;
   EvConnectionProviderService; EvAddServicer].

Definition port_bound (v : PyVal) : list Event :=
  [EvAddInsecurePort v; EvLogBind "grpc_insecure_address_port" v;
   EvServerStart; EvLogInfo "Started Connection Provider gRPC Service.";
   EvWaitForTermination].

(** How [serve] ends and what it does after [init_app], from how [init_app]
    ended and the [settings] it left. *)
Definition serve_after_init_app (binds : PyVal -> outcome unit)
    (r : outcome unit) (s' : AttrStore) : outcome unit * list Event :=
  match r with
  | Raise e => (Raise e, [])
  | Ok _ =>
      match s' !! "grpc_max_workers" with
      | None => (Raise (AttributeError "grpc_max_workers"), [])
      | Some v =>
          match max_workers_check v with
          | Raise e => (Raise e, [])
          | Ok _ =>
              match s' !! "grpc_insecure_address_port" with
              | None =>
                  (Raise (AttributeError "grpc_insecure_address_port"),
                   pool_made v)
              | Some v' =>
                  match binds v' with
                  | Raise e => (Raise e, pool_made v)
                  | Ok _ => (Ok tt, pool_made v ++ port_bound v')
                  end
              end
          end
      end
  end.

Definition ambient_settings_1 : AttrStore :=
  {[ "database_file" := VPath "/var/lib/supa/one.db" ]}.

(** An [init_app] that returns and leaves [settings] as it found it. *)
Definition quiet_init_app (s : AttrStore) : outcome unit * AttrStore :=
  (Ok tt, s).

(** A machine on which every address that is a string can be bound. *)
Definition any_address (address : PyVal) : outcome unit :=
  match address with
  | VStr _ => Ok tt
  | _ => Raise TypeError
  end.

(** A machine on which no address can be bound. *)
Definition no_address (address : PyVal) : outcome unit :=
  Raise (RuntimeError "Failed to bind to address").

End MainSpec.

(** ** The reservation core

    The state machines ([supa.connection.fsm]), the record
    ([supa.db.model]) and the connection manager are not among the sources;
    only the test fixtures that use them are.  This module follows the
    design document, section by section. *)

Module Core.

(** Modelled from the spec: the states of [ReservationStateMachine], whose
    module [supa.connection.fsm] is missing (4.1, Reservation). *)
Inductive ReservationState : Type :=
  | ReserveStart
  | ReserveChecking
  | ReserveHeld
  | ReserveCommitting
  | ReserveAborting
  | ReserveTimeout.

#[global] Instance ReservationState_eq_dec : EqDecision ReservationState.
Proof. solve_decision. Defined.

(** Modelled from the spec: the set of states of the missing
    [ReservationStateMachine], as 4.1 lists it. *)
Definition reservation_states : list ReservationState :=
  [ReserveStart; ReserveChecking; ReserveHeld; ReserveCommitting;
   ReserveAborting; ReserveTimeout].

(** Modelled from the spec: [State.value] of the missing
    [ReservationStateMachine], the value that is persisted in the record.
    The document writes the persisted field with the name of the state
    ([reservationState=ReserveChecking]); the value is that name. *)
Definition value (st : ReservationState) : string :=
  match st with
  | ReserveStart => "ReserveStart"
  | ReserveChecking => "ReserveChecking"
  | ReserveHeld => "ReserveHeld"
  | ReserveCommitting => "ReserveCommitting"
  | ReserveAborting => "ReserveAborting"
  | ReserveTimeout => "ReserveTimeout"
  end.

(** Modelled from the spec: the events of the missing reservation machine. *)
Inductive ReservationEvent : Type :=
  | RsmReserve | RsmConfirmed | RsmFailed | RsmCommit | RsmAbort
  | RsmTimeout | RsmAcknowledge.

(** Modelled from the spec: the transition table of the missing reservation
    machine (4.1); an undefined pair is rejected. *)
Definition reservation_step (st : ReservationState) (e : ReservationEvent)
  : option ReservationState :=
  match st, e with
  | ReserveStart, RsmReserve => Some ReserveChecking
  | ReserveChecking, RsmConfirmed => Some ReserveHeld
  | ReserveChecking, RsmFailed => Some ReserveStart
  | ReserveHeld, RsmCommit => Some ReserveCommitting
  | ReserveHeld, RsmAbort => Some ReserveAborting
  | ReserveHeld, RsmTimeout => Some ReserveTimeout
  | ReserveCommitting, RsmConfirmed => Some ReserveStart
  | ReserveCommitting, RsmFailed => Some ReserveHeld
  | ReserveAborting, RsmConfirmed => Some ReserveStart
  | ReserveTimeout, RsmAcknowledge => Some ReserveStart
  | _, _ => None
  end.

(** Modelled from the spec: the missing provision machine (4.1). *)
Inductive ProvisionState : Type :=
  | Released | Provisioning | Provisioned | Releasing.

#[global] Instance ProvisionState_eq_dec : EqDecision ProvisionState.
Proof. solve_decision. Defined.

Inductive ProvisionEvent : Type :=
  | PsmProvision | PsmConfirmed | PsmRelease.

(** Modelled from the spec: the transition table of the missing provision
    machine (4.1). *)
Definition provision_step (st : ProvisionState) (e : ProvisionEvent)
  : option ProvisionState :=
  match st, e with
  | Released, PsmProvision => Some Provisioning
  | Provisioning, PsmConfirmed => Some Provisioned
  | Provisioned, PsmRelease => Some Releasing
  | Releasing, PsmConfirmed => Some Released
  | _, _ => None
  end.

(** Modelled from the spec: the missing lifecycle machine (4.1). *)
Inductive LifecycleState : Type :=
  | Created | Failed | PassedEndTime | Terminating | Terminated.

#[global] Instance LifecycleState_eq_dec : EqDecision LifecycleState.
Proof. solve_decision. Defined.

Inductive LifecycleEvent : Type :=
  | LsmEndTimeReached | LsmTerminate | LsmConfirmed | LsmError.

(** Modelled from the spec: the transition table of the missing lifecycle
    machine (4.1). *)
Definition lifecycle_step (st : LifecycleState) (e : LifecycleEvent)
  : option LifecycleState :=
  match st, e with
  | Created, LsmEndTimeReached => Some PassedEndTime
  | Created, LsmTerminate | PassedEndTime, LsmTerminate
  | Failed, LsmTerminate => Some Terminating
  | Terminating, LsmConfirmed => Some Terminated
  | Created, LsmError | PassedEndTime, LsmError => Some Failed
  | _, _ => None
  end.

(** Modelled from the spec: an endpoint of the missing record (3). *)
Record Endpoint : Type := mkEndpoint {
  domain : string;
  networkType : string;
  port : string;
  vlan : Z
}.

Abbreviation ConnectionId := nat.

(** Modelled from the spec: the Connection record of the missing
    [supa.db.model] (3).  Instants are seconds in UTC.  [committed] is the
    "committed reservation" of 4.1, for which the document names no field:
    it is set when [ReserveCommitting --confirmed--> ReserveStart] is
    taken. *)
Record Connection : Type := mkConnection {
  connectionId : ConnectionId;
  correlationId : string;
  globalReservationId : string;
  requesterId : string;
  providerId : string;
  replyTo : option string;
  startTime : Z;
  endTime : Z;
  bandwidth : Z;
  symmetric : bool;
  source : Endpoint;
  destination : Endpoint;
  version : Z;
  reservationState : ReservationState;
  committed : bool;
  provisionState : ProvisionState;
  lifecycleState : LifecycleState;
  dataPlaneActive : bool;
  dataPlaneError : bool
}.

(** The four state fields of a record, with [committed]. *)
Record States : Type := mkStates {
  st_reservation : ReservationState;
  st_committed : bool;
  st_provision : ProvisionState;
  st_lifecycle : LifecycleState;
  st_active : bool;
  st_error : bool
}.

Definition states_of (c : Connection) : States :=
  mkStates (reservationState c) (committed c) (provisionState c)
           (lifecycleState c) (dataPlaneActive c) (dataPlaneError c).

(** The record with other state fields and another version. *)
Definition with_states (c : Connection) (s : States) (v : Z) : Connection :=
  mkConnection (connectionId c) (correlationId c) (globalReservationId c)
    (requesterId c) (providerId c) (replyTo c) (startTime c) (endTime c)
    (bandwidth c) (symmetric c) (source c) (destination c) v
    (st_reservation s) (st_committed s) (st_provision s) (st_lifecycle s)
    (st_active s) (st_error s).

(** Modelled from the spec: the error taxonomy of the missing connection
    manager (7). *)
Inductive Error : Type :=
  | ConnectionNotFound
  | VersionConflict
  | InvalidOperationForState (current : States)
  | ConnectionAlreadyTerminated
  | ValidationError
  | InternalStoreError.

Inductive res (A : Type) : Type :=
  | Accepted (a : A)
  | Rejected (e : Error).
Arguments Accepted {A} a.
Arguments Rejected {A} e.

(** An event for one of the machines of a connection: a protocol verb or
    an internal event, or a notification from the data plane. *)
Inductive Op : Type :=
  | OpReservation (e : ReservationEvent)
  | OpProvision (e : ProvisionEvent)
  | OpLifecycle (e : LifecycleEvent)
  | OpDataPlane (activate : bool).

(** Modelled from the spec: how the missing connection manager drives the
    machines (4.1): the table of the machine, the precondition of provision
    events, and the data plane that is forced inactive when provision
    leaves [Provisioned] or the lifecycle reaches [Terminated] and may only
    become active while [Provisioned] and not [Terminated]. *)
Definition drive (s : States) (op : Op) : option States :=
  match op with
  | OpReservation e =>
      st' ← reservation_step (st_reservation s) e;
      let done := bool_decide (st_reservation s = ReserveCommitting
                               /\ st' = ReserveStart) in
      Some (mkStates st' (st_committed s || done) (st_provision s)
                     (st_lifecycle s) (st_active s) (st_error s))
  | OpProvision e =>
      if bool_decide (st_reservation s = ReserveStart) && st_committed s
         && bool_decide (st_lifecycle s <> Terminated)
      then
        st' ← provision_step (st_provision s) e;
        let leaves := bool_decide (st_provision s = Provisioned) in
        Some (mkStates (st_reservation s) (st_committed s) st'
                       (st_lifecycle s) (st_active s && negb leaves)
                       (st_error s))
      else None
  | OpLifecycle e =>
      st' ← lifecycle_step (st_lifecycle s) e;
      let ends := bool_decide (st' = Terminated) in
      Some (mkStates (st_reservation s) (st_committed s) (st_provision s)
                     st' (st_active s && negb ends) (st_error s))
  | OpDataPlane true =>
      if bool_decide (st_provision s = Provisioned)
         && bool_decide (st_lifecycle s <> Terminated)
      then Some (mkStates (st_reservation s) (st_committed s) (st_provision s)
                          (st_lifecycle s) true (st_error s))
      else None
  | OpDataPlane false =>
      Some (mkStates (st_reservation s) (st_committed s) (st_provision s)
                     (st_lifecycle s) false (st_error s))
  end.

(** *** The record store (6): an external collaborator *)

Abbreviation Store := (gmap ConnectionId Connection).

(** Modelled from the spec: [create] of the record store, which assigns
    [connectionId], a new one, and [version=0]. *)
Definition create (c : Connection) (store : Store) : Connection * Store :=
  let id := fresh (dom store) in
  let c' := mkConnection id (correlationId c) (globalReservationId c)
              (requesterId c) (providerId c) (replyTo c) (startTime c)
              (endTime c) (bandwidth c) (symmetric c) (source c)
              (destination c) 0 (reservationState c) (committed c)
              (provisionState c) (lifecycleState c) (dataPlaneActive c)
              (dataPlaneError c) in
  (c', <[id := c']> store).

(** Modelled from the spec: [update] of the record store, which writes the
    record when the stored version is the expected one. *)
Definition update (c : Connection) (expectedVersion : Z) (store : Store)
  : res Store :=
  match store !! connectionId c with
  | None => Rejected ConnectionNotFound
  | Some old =>
      if bool_decide (version old = expectedVersion)
      then Accepted (<[connectionId c := c]> store)
      else Rejected VersionConflict
  end.

(** *** The connection manager (4.2) *)

(** Modelled from the spec: one operation of the missing connection manager
    on an existing connection, steps 2 to 5 of 4.2 with the precondition on
    [Terminated] checked first.  [store_up] tells whether the store takes
    the write; when it does not, the transition is given up as a whole. *)
Definition apply_op (cid : ConnectionId) (expectedVersion : Z) (op : Op)
    (store_up : bool) (store : Store) : res Connection * Store :=
  match store !! cid with
  | None => (Rejected ConnectionNotFound, store)
  | Some c =>
      if bool_decide (lifecycleState c = Terminated)
      then (Rejected ConnectionAlreadyTerminated, store)
      else if bool_decide (version c <> expectedVersion)
      then (Rejected VersionConflict, store)
      else
        match drive (states_of c) op with
        | None => (Rejected (InvalidOperationForState (states_of c)), store)
        | Some s' =>
            let c' := with_states c s' (version c + 1) in
            if store_up
            then match update c' expectedVersion store with
                 | Accepted store' => (Accepted c', store')
                 | Rejected e => (Rejected e, store)
                 end
            else (Rejected InternalStoreError, store)
        end
  end.

(** Modelled from the spec: the parameters of a reserve request as the RPC
    layer hands them over; a field of an endpoint may be missing. *)
Record EndpointParams : Type := mkEndpointParams {
  p_domain : option string;
  p_networkType : option string;
  p_port : option string;
  p_vlan : option Z
}.

Record ReserveRequest : Type := mkReserveRequest {
  r_connectionId : option ConnectionId;   (* none for the initial reserve *)
  r_expectedVersion : option Z;           (* omitted for creation *)
  r_correlationId : string;
  r_globalReservationId : string;
  r_requesterId : string;
  r_providerId : string;
  r_replyTo : option string;
  r_startTime : Z;
  r_endTime : Z;
  r_bandwidth : Z;
  r_symmetric : bool;
  r_source : EndpointParams;
  r_destination : EndpointParams
}.

Definition endpoint_of (p : EndpointParams) : option Endpoint :=
  d ← p_domain p; n ← p_networkType p; q ← p_port p; v ← p_vlan p;
  Some (mkEndpoint d n q v).

(** Modelled from the spec: the malformed parameters of 7: a bandwidth that
    is not positive, [endTime <= startTime], a mandatory field of an
    endpoint that is missing. *)
Definition malformed (r : ReserveRequest) : Prop :=
  r_bandwidth r <= 0 \/ r_endTime r <= r_startTime r \/
  endpoint_of (r_source r) = None \/ endpoint_of (r_destination r) = None.

#[global] Instance malformed_dec (r : ReserveRequest) : Decision (malformed r).
Proof. unfold malformed. apply _. Defined.

(** Modelled from the spec: [reserve] of the missing connection manager.
    Malformed parameters are rejected at the RPC boundary, before the store
    or a machine is used.  Without a [connectionId] the record is created in
    the state entered by the creating transition, [ReserveChecking]; with
    one, the request is the event [reserve] on that connection. *)
Definition reserve (r : ReserveRequest) (store_up : bool) (store : Store)
  : res Connection * Store :=
  if decide (malformed r) then (Rejected ValidationError, store)
  else
    match endpoint_of (r_source r), endpoint_of (r_destination r) with
    | Some src, Some dst =>
        match r_connectionId r with
        | None =>
            if store_up
            then
              let c := mkConnection 0%nat (r_correlationId r)
                         (r_globalReservationId r) (r_requesterId r)
                         (r_providerId r) (r_replyTo r) (r_startTime r)
                         (r_endTime r) (r_bandwidth r) (r_symmetric r)
                         src dst 0 ReserveChecking false Released Created
                         false false in
              let '(c', store') := create c store in
              (Accepted c', store')
            else (Rejected InternalStoreError, store)
        | Some cid =>
            match r_expectedVersion r with
            | Some v => apply_op cid v (OpReservation RsmReserve) store_up store
            | None => (Rejected ValidationError, store)
            end
        end
    | _, _ => (Rejected ValidationError, store)
    end.

(** A request to the connection manager: a reserve request, or an event for
    an existing connection with the version the caller expects. *)
Inductive Request : Type :=
  | ReqReserve (r : ReserveRequest) (store_up : bool)
  | ReqOp (cid : ConnectionId) (expectedVersion : Z) (op : Op)
          (store_up : bool).

Definition serve_request (q : Request) (store : Store)
  : res Connection * Store :=
  match q with
  | ReqReserve r up => reserve r up store
  | ReqOp cid v op up => apply_op cid v op up store
  end.

(** The store after a sequence of requests, whatever their outcomes. *)
Definition serve_requests (qs : list Request) (store : Store) : Store :=
  foldl (fun st q => (serve_request q st).2) store qs.

End Core.

(** ** Vocabulary of the statements about the core *)

Module CoreSpec.
Import Core.

(** Every record is stored under its own identifier. *)
Definition wf (store : Store) : Prop :=
  forall cid c, store !! cid = Some c -> connectionId c = cid.

Definition scenario_endpoint (p : string) : EndpointParams :=
  mkEndpointParams (Some "test.domain:2001") (Some "topology") (Some p)
                   (Some 1783).

(** The reserve request of the scenario of section 8, sent at [now]:
    bandwidth 10, start in ten minutes, end in twenty, no connection yet. *)
Definition scenario_request (now : Z) (bw : Z) : ReserveRequest :=
  mkReserveRequest None None "correlation id 1" "global reservation id"
    "urn:ogf:network:example.domain:2021:requester"
    "urn:ogf:network:example.domain:2021:provider" None
    (now + 600) (now + 1200) bw true
    (scenario_endpoint "port1") (scenario_endpoint "port2").

End CoreSpec.

(** ** tests/conftest.py *)

Module Conftest.

(** A row of [supa.db.model.Reservation], by the columns that the fixtures
    name: the keyword arguments of the constructor in [connection_id], the
    primary key that the database generates and the column that the other
    fixtures assign.  Instants are seconds in UTC; a UUID is kept as its
    text. *)
Record Reservation : Type := mkReservation {
  connection_id : option nat;            (* [None] until the flush *)
  correlation_id : string;
  protocol_version : string;
  requester_nsa : string;
  provider_nsa : string;
  reply_to : option string;
  session_security_attributes : option string;
  global_reservation_id : string;
  description : string;
  version : Z;
  start_time : Z;
  end_time : Z;
  bandwidth : Z;
  symmetric : bool;
  src_domain : string;
  src_network_type : string;
  src_port : string;
  src_vlans : Z;
  dst_domain : string;
  dst_network_type : string;
  dst_port : string;
  dst_vlans : Z;
  lifecycle_state : string;
  reservation_state : string
}.

(** The table, by primary key. *)
Abbreviation Table := (gmap nat Reservation).

(** [timedelta(minutes=m)] in seconds *)
Definition minutes (m : Z) : Z := 60 * m.

Definition set_connection_id (id : nat) (r : Reservation) : Reservation :=
  mkReservation (Some id) (correlation_id r) (protocol_version r)
    (requester_nsa r) (provider_nsa r) (reply_to r)
    (session_security_attributes r) (global_reservation_id r) (description r)
    (version r) (start_time r) (end_time r) (bandwidth r) (symmetric r)
    (src_domain r) (src_network_type r) (src_port r) (src_vlans r)
    (dst_domain r) (dst_network_type r) (dst_port r) (dst_vlans r)
    (lifecycle_state r) (reservation_state r).

(** [reservation.reservation_state = v] *)
Definition set_reservation_state (v : string) (r : Reservation)
  : Reservation :=
  mkReservation (connection_id r) (correlation_id r) (protocol_version r)
    (requester_nsa r) (provider_nsa r) (reply_to r)
    (session_security_attributes r) (global_reservation_id r) (description r)
    (version r) (start_time r) (end_time r) (bandwidth r) (symmetric r)
    (src_domain r) (src_network_type r) (src_port r) (src_vlans r)
    (dst_domain r) (dst_network_type r) (dst_port r) (dst_vlans r)
    (lifecycle_state r) v.

Section Fixtures.

(** The default of the column [reservation_state], which the constructor
    in [connection_id] does not give; the model class is not among the
    sources. *)
Variable default_reservation_state : string.

(** The fixture [connection_id], up to its [yield]: the row that it builds
    and the table after [session.add] and [session.flush], at which the
    database generates the [connection_id].  [uuid] is the result of
    [uuid4()] and [now1], [now2] those of the two calls of
    [datetime.now]. *)
Definition connection_id_fixture (uuid : string) (now1 now2 : Z)
    (table : Table) : nat * Table :=
  let reservation :=
    mkReservation None uuid
      "application/vnd.ogf.nsi.cs.v2.provider+soap"
      "urn:ogf:network:example.domain:2021:requester"
      "urn:ogf:network:example.domain:2021:provider"
      None None "global reservation id" "reservation 1"
      0 (now1 + minutes 10) (now2 + minutes 20) 10 true
      "test.domain:2001" "topology" "port1" 1783
      "test.domain:2001" "topology" "port2" 1783
      "CREATED" default_reservation_state in
  let id := fresh (dom table) in
  (id, <[id := set_connection_id id reservation]> table).

(** After the [yield]: [session.delete(reservation)]. *)
Definition connection_id_teardown (id : nat) (table : Table) : Table :=
  delete id table.

End Fixtures.

(** [session.query(Reservation).filter(...).one()] followed by the
    assignment to [reservation_state]; [one()] raises when no row has the
    key, which is [None] here. *)
Definition assign_state (st : Core.ReservationState) (connection_id : nat)
    (table : Table) : option Table :=
  match table !! connection_id with
  | Some reservation =>
      Some (<[connection_id :=
                set_reservation_state (Core.value st) reservation]> table)
  | None => None
  end.

(** The fixture [reserve_held] *)
Definition reserve_held : nat -> Table -> option Table :=
  assign_state Core.ReserveHeld.

(** The fixture [reserve_committing] *)
Definition reserve_committing : nat -> Table -> option Table :=
  assign_state Core.ReserveCommitting.

(** The fixture [reserve_aborting] *)
Definition reserve_aborting : nat -> Table -> option Table :=
  assign_state Core.ReserveAborting.

End Conftest.

(** ** Vocabulary of the statements about the fixtures *)

Module ConftestSpec.

(** The key and the table after the fixture [connection_id] has run on an
    empty table. *)
Definition fixture_table : nat * Conftest.Table :=
  Conftest.connection_id_fixture "default state"
    "7d0b1f5e-3c0a-4f57-9d0e-0f6f3f2f6c11" 0 0 ∅.

(** The three fixtures that assign a state, each with its state. *)
Definition state_fixtures
  : list ((nat -> Conftest.Table -> option Conftest.Table) *
          Core.ReservationState) :=
  [(Conftest.reserve_held, Core.ReserveHeld);
   (Conftest.reserve_committing, Core.ReserveCommitting);
   (Conftest.reserve_aborting, Core.ReserveAborting)].

End ConftestSpec.

(** ** main.py: a sub-command that takes the common options *)

Module Subcommand.
Import Main.

(** [pass_common_options_state], that is
    [click.make_pass_decorator(CommonOptionsState, ensure=True)]: the
    decorated function is called with the [CommonOptionsState] of the
    context as its first argument, made first when the context has none. *)
Definition pass_common_options_state {A} (f : CommonOptionsState -> M A)
  : M A :=
  cos ← ensure_object; f cos.

(** A sub-command declared as in the docstring of
    [pass_common_options_state], under [@common_options] and
    [@pass_common_options_state]: Click runs the callbacks of the options,
    then the function. *)
Definition invoke_sub_command {A} (ps : list CommonOption)
    (f : CommonOptionsState -> M A) : M A :=
  process_params ps ;; pass_common_options_state f.

End Subcommand.

(** ** tests/conftest.py: the fixture [init] *)

Module ConftestInit.
Import Main.

(** The fixture [init] up to its [yield].  [tmp] is the directory that
    [tmp_path_factory.mktemp("supa")] returns; [body] is what [init_app]
    does and [binds] what [server.add_insecure_port] does, as for [serve]. *)
Definition init (body : AttrStore -> outcome unit * AttrStore)
    (binds : PyVal -> outcome unit) (tmp : string) : M unit :=
  setattr "database_file" (VPath (String.append tmp "/supa.db")) ;;
  init_app body ;;
  n ← getattr "grpc_server_max_workers";
  ThreadPoolExecutor n ;;
  emit EvGrpcServer ;;
  emit EvConnectionProviderService ;;
  emit EvAddServicer ;;
  a ← getattr "grpc_server_insecure_address_port";
  add_insecure_port binds a ;;
  emit EvServerStart.

End ConftestInit.

(** ** Vocabulary of further statements about main.py and the fixtures *)

Module ExtraSpec.
Import Main MainSpec.

Inductive OptionKind : Type :=
  | KDatabaseFile
  | KSchedulerMaxWorkers
  | KDomainName.

#[global] Instance OptionKind_eq_dec : EqDecision OptionKind.
Proof. solve_decision. Defined.

Definition option_kind (o : CommonOption) : OptionKind :=
  match o with
  | OptDatabaseFile _ => KDatabaseFile
  | OptSchedulerMaxWorkers _ => KSchedulerMaxWorkers
  | OptDomainName _ => KDomainName
  end.

(** The value of an option as [settings] holds it. *)
Definition option_value (o : CommonOption) : option PyVal :=
  match o with
  | OptDatabaseFile v => VPath <$> v
  | OptSchedulerMaxWorkers v => VInt <$> v
  | OptDomainName v => VStr <$> v
  end.

(** The attribute of [settings] and the field of [CommonOptionsState] that
    belong to an option. *)
Definition attr_of (k : OptionKind) : string :=
  match k with
  | KDatabaseFile => "database_file"
  | KSchedulerMaxWorkers => "scheduler_max_workers"
  | KDomainName => "domain_name"
  end.

Definition field_of (k : OptionKind) (cos : CommonOptionsState)
  : option PyVal :=
  match k with
  | KDatabaseFile => VPath <$> database_file cos
  | KSchedulerMaxWorkers => VInt <$> scheduler_max_workers cos
  | KDomainName => VStr <$> domain_name cos
  end.

(** The assignment that a callback makes to the [CommonOptionsState]. *)
Definition set_option (o : CommonOption) (cos : CommonOptionsState)
  : CommonOptionsState :=
  match o with
  | OptDatabaseFile (Some v) =>
      mkCommonOptionsState (Some v) (scheduler_max_workers cos)
                           (domain_name cos)
  | OptSchedulerMaxWorkers (Some v) =>
      mkCommonOptionsState (database_file cos) (Some v) (domain_name cos)
  | OptDomainName (Some v) =>
      mkCommonOptionsState (database_file cos) (scheduler_max_workers cos)
                           (Some v)
  | _ => cos
  end.

Definition cos_after (ps : list CommonOption) (cos : CommonOptionsState)
  : CommonOptionsState :=
  foldl (fun c o => set_option o c) cos ps.

(** Every field of the [CommonOptionsState] that is not [None] is also the
    value of its attribute of [settings]. *)
Definition mirrors (cos : CommonOptionsState) (s : AttrStore) : Prop :=
  forall k v, field_of k cos = Some v -> s !! attr_of k = Some v.

(** A function of a sub-command that hands back what it was called with. *)
Definition report_options (cos : CommonOptionsState)
  : M CommonOptionsState := mret cos.

(** An [init_app] that raises and leaves [settings] alone. *)
Definition failing_init_app (s : AttrStore) : outcome unit * AttrStore :=
  (Raise (Exception "unable to open database file"), s).

Definition test_settings : AttrStore :=
  {[ "grpc_server_max_workers" := VInt 8;
     "grpc_server_insecure_address_port" := VStr "localhost:9090" ]}.

End ExtraSpec.

(** ** Properties of main.py *)

Module MainProofs.
Import Main MainSpec.

Lemma bind_run {A B} (m : M A) (k : A -> M B) (w : World) :
  (m ≫= k) w =
  match m w with
  | (Ok a, w') => k a w'
  | (Raise e, w') => (Raise e, w')
  end.
Proof. reflexivity. Qed.

Lemma ensure_object_run (w : World) :
  ensure_object w =
  (Ok (cos_of w), mkWorld (Some (cos_of w)) (settings w) (trace w)).
Proof.
  unfold ensure_object, cos_of. destruct w as [[c|] s t]; reflexivity.
Qed.

Lemma database_file_callback_run (value : option string) (w : World) :
  database_file_option_callback value w =
  (Ok value,
   match value with
   | Some v =>
       mkWorld
         (Some (mkCommonOptionsState (Some v)
                  (scheduler_max_workers (cos_of w)) (domain_name (cos_of w))))
         (<["database_file" := VPath v]> (settings w))
         (trace w ++ [EvSetAttr "database_file" (VPath v)])
   | None => mkWorld (Some (cos_of w)) (settings w) (trace w)
   end).
Proof.
  unfold database_file_option_callback.
  rewrite bind_run, ensure_object_run. destruct value; reflexivity.
Qed.

Lemma scheduler_max_workers_callback_run (value : option Z) (w : World) :
  scheduler_max_workers_option_callback value w =
  (Ok value,
   match value with
   | Some v =>
       mkWorld
         (Some (mkCommonOptionsState (database_file (cos_of w)) (Some v)
                  (domain_name (cos_of w))))
         (<["scheduler_max_workers" := VInt v]> (settings w))
         (trace w ++ [EvSetAttr "scheduler_max_workers" (VInt v)])
   | None => mkWorld (Some (cos_of w)) (settings w) (trace w)
   end).
Proof.
  unfold scheduler_max_workers_option_callback.
  rewrite bind_run, ensure_object_run. destruct value; reflexivity.
Qed.

Lemma domain_name_callback_run (value : option string) (w : World) :
  domain_name_option_callback value w =
  (Ok value,
   match value with
   | Some v =>
       mkWorld
         (Some (mkCommonOptionsState (database_file (cos_of w))
                  (scheduler_max_workers (cos_of w)) (Some v)))
         (<["domain_name" := VStr v]> (settings w))
         (trace w ++ [EvSetAttr "domain_name" (VStr v)])
   | None => mkWorld (Some (cos_of w)) (settings w) (trace w)
   end).
Proof.
  unfold domain_name_option_callback.
  rewrite bind_run, ensure_object_run. destruct value; reflexivity.
Qed.

(** C8: each of the three callbacks of the common options returns the value
    it was called with, [None] or not. *)
Theorem callbacks_return_their_value :
  (forall (value : option string) (w : World),
      result (database_file_option_callback value) w = Ok value) /\
  (forall (value : option Z) (w : World),
      result (scheduler_max_workers_option_callback value) w = Ok value) /\
  (forall (value : option string) (w : World),
      result (domain_name_option_callback value) w = Ok value).
Proof.
  unfold result. repeat split; intros value w.
  - by rewrite database_file_callback_run.
  - by rewrite scheduler_max_workers_callback_run.
  - by rewrite domain_name_callback_run.
Qed.

(** C9: called with [None], each of the three callbacks leaves every
    attribute of [settings] as it was, writes nothing, and leaves the
    [CommonOptionsState] object it obtained from the context (the one that
    was there, or the default one that [ensure_object] made) as it was; a
    context that had its object is left unchanged as a whole. *)
Theorem callbacks_with_None_change_nothing (w : World) :
  let unchanged (w' : World) :=
    settings w' = settings w /\ trace w' = trace w /\
    ctx_obj w' = Some (cos_of w) /\
    (forall cos, ctx_obj w = Some cos -> w' = w) in
  unchanged (exec (database_file_option_callback None) w) /\
  unchanged (exec (scheduler_max_workers_option_callback None) w) /\
  unchanged (exec (domain_name_option_callback None) w).
Proof.
  unfold exec. cbv zeta.
  rewrite database_file_callback_run, scheduler_max_workers_callback_run,
    domain_name_callback_run. cbn [snd settings trace ctx_obj].
  assert (forall cos, ctx_obj w = Some cos ->
            mkWorld (Some (cos_of w)) (settings w) (trace w) = w) as Hsame.
  { intros cos Hc. unfold cos_of. rewrite Hc. destruct w; simpl in *.
    by rewrite Hc. }
  repeat split; exact Hsame.
Qed.

(** *** Running the parse step and [serve] *)

(** Membership in a list that is written out: one case per element. *)
Ltac in_concrete_list :=
  match goal with
  | H : _ ∈ [] |- _ => by apply elem_of_nil in H
  | H : _ ∈ _ :: _ |- _ =>
      apply elem_of_cons in H; destruct H as [H|H];
      [try discriminate H; try (injection H as ->)|]
  end.

Lemma apply_writes_app (ws1 ws2 : list (string * PyVal)) (s : AttrStore) :
  apply_writes (ws1 ++ ws2) s = apply_writes ws2 (apply_writes ws1 s).
Proof. unfold apply_writes. apply foldl_app. Qed.

Lemma run_callback_run (o : CommonOption) (w : World) :
  exists c,
    run_callback o w =
    (Ok tt, mkWorld (Some c) (apply_writes (option_writes o) (settings w))
                    (trace w ++ (write_event <$> option_writes o))).
Proof.
  destruct o as [v|v|v]; unfold run_callback; rewrite bind_run;
    [rewrite database_file_callback_run
    |rewrite scheduler_max_workers_callback_run
    |rewrite domain_name_callback_run];
    destruct v; cbn [option_writes apply_writes foldl fmap list_fmap
                     write_event fst snd];
    rewrite ?app_nil_r; eexists; reflexivity.
Qed.

Lemma process_params_run (ps : list CommonOption) (w : World) :
  exists c,
    process_params ps w =
    (Ok tt, mkWorld c (apply_writes (parsed_writes ps) (settings w))
                    (trace w ++ (write_event <$> parsed_writes ps))).
Proof.
  revert w. induction ps as [|p ps IH]; intros w.
  - exists (ctx_obj w). destruct w. cbn. by rewrite app_nil_r.
  - cbn [process_params]. rewrite bind_run.
    destruct (run_callback_run p w) as [c ->].
    destruct (IH (mkWorld (Some c) (apply_writes (option_writes p) (settings w))
                    (trace w ++ (write_event <$> option_writes p)))) as [c' ->].
    exists c'. cbn [settings trace].
    unfold parsed_writes. cbn [mbind list_bind].
    by rewrite apply_writes_app, fmap_app, app_assoc.
Qed.

Lemma call_run (r : outcome unit) (e : Event) (w : World) :
  call r e w =
  match r with
  | Ok _ => (Ok tt, mkWorld (ctx_obj w) (settings w) (trace w ++ [e]))
  | Raise x => (Raise x, w)
  end.
Proof. by destruct r. Qed.

(** [serve], step by step: the two writes, [init_app], and then what
    [serve_after_init_app] says. *)
Lemma serve_full (body : AttrStore -> outcome unit * AttrStore)
    (binds : PyVal -> outcome unit) (n : Z) (a : string) (w : World) :
  let s := apply_writes (serve_writes n a) (settings w) in
  let tail := serve_after_init_app binds (body s).1 (body s).2 in
  serve body binds n a w =
  (tail.1,
   mkWorld (ctx_obj w) (body s).2
     (trace w ++ (write_event <$> serve_writes n a) ++ EvInitApp s :: tail.2)).
Proof.
  cbv zeta. unfold serve, apply_writes, serve_writes, serve_after_init_app.
  cbn [foldl fst snd fmap list_fmap write_event].
  cbv [mbind M_bind bind setattr init_app getattr emit ThreadPoolExecutor
       add_insecure_port call].
  cbn [settings trace ctx_obj].
  destruct (body _) as [[[]|e] s']; cbn [fst snd];
    [destruct (s' !! "grpc_max_workers") as [v|] eqn:Hn;
       [destruct (max_workers_check v) as [[]|e] eqn:Hc;
          [destruct (s' !! "grpc_insecure_address_port") as [v'|] eqn:Ha;
             [destruct (binds v') as [[]|e] eqn:Hb|]|]|]|];
    repeat (progress (cbn [settings trace ctx_obj snd fst];
                      rewrite ?Hn, ?Hc, ?Ha, ?Hb));
    unfold pool_made, port_bound; by rewrite <- ?app_assoc.
Qed.

Lemma serve_tail_no_write (binds : PyVal -> outcome unit) (r : outcome unit)
    (s' : AttrStore) :
  forallb (fun e => negb (is_write e)) (serve_after_init_app binds r s').2
  = true.
Proof.
  unfold serve_after_init_app. destruct r as [[]|e]; [|done].
  destruct (s' !! "grpc_max_workers") as [v|]; [|done].
  destruct (max_workers_check v) as [[]|e]; [|done].
  destruct (s' !! "grpc_insecure_address_port") as [v'|]; [|done].
  by destruct (binds v') as [[]|e].
Qed.

(** A pool in the events after [init_app]: [init_app] had returned, the
    size is the value of the attribute and passed the test, and the service
    has been constructed as well. *)
Lemma serve_tail_pool (binds : PyVal -> outcome unit) (r : outcome unit)
    (s' : AttrStore) (v : PyVal) :
  EvThreadPoolExecutor v ∈ (serve_after_init_app binds r s').2 ->
  r = Ok tt /\ s' !! "grpc_max_workers" = Some v /\
  max_workers_check v = Ok tt /\
  EvConnectionProviderService ∈ (serve_after_init_app binds r s').2.
Proof.
  unfold serve_after_init_app. destruct r as [[]|e]; [|by intros ?%elem_of_nil].
  destruct (s' !! "grpc_max_workers") as [v0|]; [|by intros ?%elem_of_nil].
  destruct (max_workers_check v0) as [[]|e] eqn:Hc;
    [|by intros ?%elem_of_nil].
  assert (forall l, EvThreadPoolExecutor v ∈ pool_made v0 ++ l ->
                    Forall (fun e => negb (is_construction e)
                                     || bool_decide (e <> EvThreadPoolExecutor v))
                           l ->
                    v = v0) as Hin.
  { intros l [Hv|Hv]%elem_of_app Hl.
    - unfold pool_made in Hv. repeat in_concrete_list. done.
    - rewrite Forall_forall in Hl. specialize (Hl _ Hv). cbn in Hl.
      by rewrite bool_decide_eq_false_2 in Hl by (intros H; by apply H). }
  assert (forall l, EvConnectionProviderService ∈ pool_made v0 ++ l) as Hsvc
    by (intros l; apply elem_of_app; left; unfold pool_made;
        by repeat first [apply list_elem_of_here
                        | apply list_elem_of_further]).
  destruct (s' !! "grpc_insecure_address_port") as [v'|];
    [destruct (binds v') as [[]|e]|]; cbn [snd]; intros Hv.
  - assert (v = v0) as -> by (apply (Hin _ Hv); unfold port_bound;
                              by repeat constructor).
    done.
  - rewrite <- (app_nil_r (pool_made v0)) in Hv |- *.
    assert (v = v0) as -> by (apply (Hin _ Hv); constructor). done.
  - rewrite <- (app_nil_r (pool_made v0)) in Hv |- *.
    assert (v = v0) as -> by (apply (Hin _ Hv); constructor). done.
Qed.

(** A port in the events after [init_app]: the address is the value of the
    attribute, it could be bound, and [serve] went through. *)
Lemma serve_tail_port (binds : PyVal -> outcome unit) (r : outcome unit)
    (s' : AttrStore) (v' : PyVal) :
  EvAddInsecurePort v' ∈ (serve_after_init_app binds r s').2 ->
  s' !! "grpc_insecure_address_port" = Some v' /\ binds v' = Ok tt /\
  (serve_after_init_app binds r s').1 = Ok tt /\
  EvServerStart ∈ (serve_after_init_app binds r s').2.
Proof.
  unfold serve_after_init_app. destruct r as [[]|e]; [|by intros ?%elem_of_nil].
  destruct (s' !! "grpc_max_workers") as [v0|]; [|by intros ?%elem_of_nil].
  destruct (max_workers_check v0) as [[]|e]; [|by intros ?%elem_of_nil].
  destruct (s' !! "grpc_insecure_address_port") as [v1|];
    [destruct (binds v1) as [[]|e] eqn:Hb|]; cbn [fst snd];
    unfold pool_made, port_bound; cbn [app]; intros Hv;
    repeat in_concrete_list.
  repeat split; try done.
  by repeat first [apply list_elem_of_here | apply list_elem_of_further].
Qed.

(** *** Lookups after a sequence of writes *)

Lemma apply_writes_lookup_other (ws : list (string * PyVal)) (s : AttrStore)
    (k : string) :
  k ∉ ws.*1 -> apply_writes ws s !! k = s !! k.
Proof.
  revert s. induction ws as [|[k' v] ws IH]; intros s Hk; [done|].
  cbn in Hk. apply not_elem_of_cons in Hk as [Hne Hk].
  change (apply_writes ((k', v) :: ws) s)
    with (apply_writes ws (<[k' := v]> s)).
  rewrite (IH _ Hk). by apply lookup_insert_ne.
Qed.


(** The whole invocation: the callbacks, then [serve]. *)
Lemma invoke_serve_full (body : AttrStore -> outcome unit * AttrStore)
    (binds : PyVal -> outcome unit) (ps : list CommonOption) (n : Z)
    (a : string) (w : World) :
  let ws := parsed_writes ps ++ serve_writes n a in
  let s := apply_writes ws (settings w) in
  let tail := serve_after_init_app binds (body s).1 (body s).2 in
  exists c,
    invoke_serve body binds ps n a w =
    (tail.1,
     mkWorld c (body s).2
       (trace w ++ (write_event <$> ws) ++ EvInitApp s :: tail.2)).
Proof.
  cbv zeta. unfold invoke_serve. rewrite bind_run.
  destruct (process_params_run ps w) as [c ->]. exists c.
  rewrite serve_full. cbv zeta. cbn [settings trace ctx_obj].
  by rewrite !apply_writes_app, fmap_app, <- !app_assoc.
Qed.

(** *** The claims about the command line *)

(** C1, as stated, fails: the parse step is not pure.  Parsing
    [--database-file supa.db] in a process whose [settings] has no
    [database_file] leaves a [settings] that has one. *)
Lemma parse_step_writes_settings :
  let w := mkWorld None ∅ [] in
  let w' := exec (process_params [OptDatabaseFile (Some "supa.db")]) w in
  settings w !! "database_file" = None /\
  settings w' !! "database_file" = Some (VPath "supa.db") /\
  settings w' <> settings w /\
  trace w' = [EvSetAttr "database_file" (VPath "supa.db")].
Proof.
  cbv zeta. split; [reflexivity|]. split; [by vm_compute|].
  split; [|by vm_compute].
  intros H. apply (f_equal (fun s : AttrStore => s !! "database_file")) in H.
  vm_compute in H. discriminate H.
Qed.

(** C1, amended: in every invocation of [serve] the callbacks write each
    option value that is not [None] to its attribute of the shared
    [settings] (and nothing else), [serve] then writes its two arguments,
    and these writes, in this order, are all that happens before
    [init_app]: [init_app] is called on the [settings] so written, nothing
    is constructed before it, and [serve] writes no attribute of [settings]
    once [init_app] has been called. *)
Theorem settings_written_before_init_app
    (body : AttrStore -> outcome unit * AttrStore)
    (binds : PyVal -> outcome unit)
    (ps : list CommonOption) (n : Z) (a : string) (w : World) :
  let ws := parsed_writes ps ++ serve_writes n a in
  settings (exec (process_params ps) w) =
    apply_writes (parsed_writes ps) (settings w) /\
  exists post,
    trace (exec (invoke_serve body binds ps n a) w) =
      trace w ++ (write_event <$> ws) ++
      EvInitApp (apply_writes ws (settings w)) :: post /\
    forallb (fun e => negb (is_construction e)) (write_event <$> ws) = true /\
    forallb (fun e => negb (is_write e)) post = true.
Proof.
  intros ws. split.
  - unfold exec. by destruct (process_params_run ps w) as [c ->].
  - destruct (invoke_serve_full body binds ps n a w) as (c & Hrun).
    eexists. unfold exec. rewrite Hrun. cbn [snd trace].
    split; [reflexivity|]. split; [|apply serve_tail_no_write].
    apply forallb_forall. intros e He. apply list_elem_of_In in He.
    apply list_elem_of_fmap in He as ([k v] & -> & _). done.
Qed.



(** C3, as stated, fails twice.  The options of [serve] are five, not the
    four of the claim: [--grpc-max-workers] is one of them.  And
    [supa serve --grpc-max-workers 0] makes no thread pool: the value is
    written to [settings.grpc_max_workers], [init_app] runs, and then
    [ThreadPoolExecutor] raises [ValueError], with nothing made or bound. *)
Lemma serve_surface_and_pool_size :
  let names := opt_name <$> serve_params in
  let run := invoke_serve quiet_init_app any_address [] 0 "[::]:50051" in
  let w := mkWorld None ∅ [] in
  length names = 5%nat /\
  "--grpc-max-workers" ∈ names /\
  ("--grpc-max-workers" ∉
     ["--database-file"; "--scheduler-max-workers";
      "--grpc-insecure-address-port"; "--domain-name"]) /\
  result run w = Raise ValueError /\
  settings (exec run w) !! "grpc_max_workers" = Some (VInt 0) /\
  filter (fun e => is_construction e = true) (trace (exec run w)) = [].
Proof.
  cbv zeta. split; [reflexivity|].
  split; [apply list_elem_of_here|].
  split; [intros H; repeat in_concrete_list|].
  split; [by vm_compute|]. split; by vm_compute.
Qed.

(** C3, amended: [serve] has five options, those of the database file, of
    the scheduler's pool, of the address and port, of the domain name and
    of the gRPC pool; the two gRPC options are the arguments of [serve],
    which writes them to [settings.grpc_max_workers] and
    [settings.grpc_insecure_address_port] before [init_app] is called.  A
    thread pool that is made has the value of [settings.grpc_max_workers]
    after [init_app] as its size, and that value has passed the test of
    [ThreadPoolExecutor]; a port that is added has the value of
    [settings.grpc_insecure_address_port] as its address, and gRPC could
    bind it.  When [init_app] returns and leaves both attributes: with a
    size that passes the test and an address that can be bound, [serve]
    makes the pool, adds the port and goes through; with a size that does
    not pass, as 0, it ends with the exception of [ThreadPoolExecutor] and
    makes nothing; with an address that cannot be bound it ends with the
    exception of gRPC and does not start the server. *)
Theorem serve_uses_the_grpc_settings
    (body : AttrStore -> outcome unit * AttrStore)
    (binds : PyVal -> outcome unit)
    (ps : list CommonOption) (n : Z) (a : string) (w : World) :
  opt_name <$> serve_params =
    ["--grpc-max-workers"; "--grpc-insecure-address-port"; "--domain-name";
     "--scheduler-max-workers"; "--database-file"] /\
  exposed serve_params =
    ["--grpc-max-workers"; "--grpc-insecure-address-port"] /\
  exists pre s post,
    trace (exec (invoke_serve body binds ps n a) w) =
      trace w ++ pre ++ EvInitApp s :: post /\
    s !! "grpc_max_workers" = Some (VInt n) /\
    s !! "grpc_insecure_address_port" = Some (VStr a) /\
    (forall v, EvThreadPoolExecutor v ∈ post ->
               (body s).2 !! "grpc_max_workers" = Some v /\
               max_workers_check v = Ok tt) /\
    (forall v, EvAddInsecurePort v ∈ post ->
               (body s).2 !! "grpc_insecure_address_port" = Some v /\
               binds v = Ok tt) /\
    (forall v v', (body s).1 = Ok tt ->
       (body s).2 !! "grpc_max_workers" = Some v ->
       (body s).2 !! "grpc_insecure_address_port" = Some v' ->
       (max_workers_check v = Ok tt -> binds v' = Ok tt ->
        result (invoke_serve body binds ps n a) w = Ok tt /\
        EvThreadPoolExecutor v ∈ post /\ EvAddInsecurePort v' ∈ post /\
        EvServerStart ∈ post) /\
       (forall e, max_workers_check v = Raise e ->
        result (invoke_serve body binds ps n a) w = Raise e /\ post = []) /\
       (forall e, max_workers_check v = Ok tt -> binds v' = Raise e ->
        result (invoke_serve body binds ps n a) w = Raise e /\
        EvThreadPoolExecutor v ∈ post /\ (EvAddInsecurePort v' ∉ post) /\
        (EvServerStart ∉ post))).
Proof.
  split; [reflexivity|]. split; [reflexivity|].
  destruct (invoke_serve_full body binds ps n a w) as (c & Hrun).
  eexists _, _, _. unfold result, exec. rewrite Hrun. cbn [fst snd trace].
  split; [reflexivity|].
  rewrite apply_writes_app.
  change (apply_writes (serve_writes n a) ?s)
    with (<["grpc_insecure_address_port" := VStr a]>
            (<["grpc_max_workers" := VInt n]> s)).
  split; [rewrite lookup_insert_ne; [apply lookup_insert_eq|done]|].
  split; [apply lookup_insert_eq|].
  split; [intros v H; by apply serve_tail_pool in H as (_ & ? & ? & _)|].
  split; [intros v H; by apply serve_tail_port in H as (? & ? & _)|].
  intros v v'. destruct (body _) as [r s']. cbn [fst snd].
  intros -> Hn Ha. unfold serve_after_init_app. rewrite Hn, Ha.
  split; [|split].
  - intros -> ->. cbn [fst snd]. split; [done|].
    unfold pool_made, port_bound. cbn [app].
    repeat split;
      by repeat first [apply list_elem_of_here | apply list_elem_of_further].
  - by intros e ->.
  - intros e -> ->. cbn [fst snd]. split; [done|].
    unfold pool_made. split; [apply list_elem_of_here|].
    split; intros H; repeat in_concrete_list.
Qed.

(** C9 on a context that has its object: the callback leaves the whole
    process state as it was. *)
Lemma callbacks_with_None_change_nothing_witness :
  let w := mkWorld (Some (mkCommonOptionsState None (Some 4) None))
                   ambient_settings_1 [] in
  exec (database_file_option_callback None) w = w /\
  exec (scheduler_max_workers_option_callback None) w = w /\
  exec (domain_name_option_callback None) w = w.
Proof.
  cbv zeta.
  destruct (callbacks_with_None_change_nothing
              (mkWorld (Some (mkCommonOptionsState None (Some 4) None))
                       ambient_settings_1 []))
    as ((_ & _ & _ & H1) & (_ & _ & _ & H2) & (_ & _ & _ & H3)).
  split; [exact (H1 _ eq_refl)|].
  split; [exact (H2 _ eq_refl)|exact (H3 _ eq_refl)].
Defined.

(** C3 with an [init_app] that returns and leaves [settings] alone, on a
    machine where the address can be bound:
    [supa serve --grpc-max-workers 8 --grpc-insecure-address-port
    [::]:50051] goes through, with a pool of 8 workers on that port. *)
Lemma serve_uses_the_grpc_settings_witness :
  let run := invoke_serve quiet_init_app any_address [] 8 "[::]:50051" in
  let stuck := invoke_serve quiet_init_app no_address [] 8 "[::]:50051" in
  let w := mkWorld None ∅ [] in
  result run w = Ok tt /\
  EvThreadPoolExecutor (VInt 8) ∈ trace (exec run w) /\
  EvAddInsecurePort (VStr "[::]:50051") ∈ trace (exec run w) /\
  result stuck w = Raise (RuntimeError "Failed to bind to address").
Proof.
  cbv zeta.
  destruct (serve_uses_the_grpc_settings quiet_init_app any_address [] 8
              "[::]:50051" (mkWorld None ∅ []))
    as (_ & _ & pre & s & post & Ht & Hn & Ha & _ & _ & Hgo).
  destruct (Hgo (VInt 8) (VStr "[::]:50051") eq_refl Hn Ha) as (Hok & _).
  destruct (Hok eq_refl eq_refl) as (Hr & Hpool & Hport & _).
  destruct (serve_uses_the_grpc_settings quiet_init_app no_address [] 8
              "[::]:50051" (mkWorld None ∅ []))
    as (_ & _ & pre' & s' & post' & _ & Hn' & Ha' & _ & _ & Hgo').
  destruct (Hgo' (VInt 8) (VStr "[::]:50051") eq_refl Hn' Ha')
    as (_ & _ & Hstuck).
  destruct (Hstuck _ eq_refl eq_refl) as (Hr' & _).
  split; [exact Hr|]. rewrite Ht.
  split; [|split; [|exact Hr']];
    apply elem_of_app; right; apply elem_of_app; right;
    by apply list_elem_of_further.
Defined.

End MainProofs.

(** ** Properties of the reservation core *)

Module CoreProofs.
Import Core CoreSpec ConftestSpec.

(** C4: the states of the reservation machine are the six of the design
    document, no more and no fewer, and no two states are persisted with the
    same value; in particular the values that the fixtures [reserve_held],
    [reserve_committing] and [reserve_aborting] write to a row are those of
    [ReserveHeld], [ReserveCommitting] and [ReserveAborting], and they are
    pairwise different. *)
Theorem reservation_states_exact :
  (forall st : ReservationState, st ∈ reservation_states) /\
  NoDup reservation_states /\
  length reservation_states = 6%nat /\
  (forall st1 st2, value st1 = value st2 -> st1 = st2) /\
  (forall (id : nat) (table : Conftest.Table) (row : Conftest.Reservation),
      table !! id = Some row ->
      exists t1 t2 t3 r1 r2 r3,
        Conftest.reserve_held id table = Some t1 /\
        Conftest.reserve_committing id table = Some t2 /\
        Conftest.reserve_aborting id table = Some t3 /\
        t1 !! id = Some r1 /\ t2 !! id = Some r2 /\ t3 !! id = Some r3 /\
        Conftest.reservation_state r1 = value ReserveHeld /\
        Conftest.reservation_state r2 = value ReserveCommitting /\
        Conftest.reservation_state r3 = value ReserveAborting /\
        Conftest.reservation_state r1 <> Conftest.reservation_state r2 /\
        Conftest.reservation_state r1 <> Conftest.reservation_state r3 /\
        Conftest.reservation_state r2 <> Conftest.reservation_state r3).
Proof.
  split; [intros []; unfold reservation_states;
          by repeat first [apply list_elem_of_here
                          | apply list_elem_of_further]|].
  split; [by apply (bool_decide_unpack (NoDup reservation_states))|].
  split; [reflexivity|].
  split; [intros [] []; cbn; intros H; first [reflexivity | discriminate H]|].
  intros id table row Hrow.
  unfold Conftest.reserve_held, Conftest.reserve_committing,
    Conftest.reserve_aborting, Conftest.assign_state. rewrite Hrow.
  eexists _, _, _, _, _, _.
  repeat (split; [first [reflexivity | apply lookup_insert_eq]|]).
  cbn. repeat split; discriminate.
Qed.

(** C4 on the table that the fixture [connection_id] makes: the three
    fixtures go through and leave three different persisted values. *)
Lemma reservation_states_exact_witness :
  let id := fixture_table.1 in
  let table := fixture_table.2 in
  exists t1 t2 t3 r1 r2 r3,
    Conftest.reserve_held id table = Some t1 /\
    Conftest.reserve_committing id table = Some t2 /\
    Conftest.reserve_aborting id table = Some t3 /\
    t1 !! id = Some r1 /\ t2 !! id = Some r2 /\ t3 !! id = Some r3 /\
    Conftest.reservation_state r1 = value ReserveHeld /\
    Conftest.reservation_state r2 = value ReserveCommitting /\
    Conftest.reservation_state r3 = value ReserveAborting /\
    Conftest.reservation_state r1 <> Conftest.reservation_state r2 /\
    Conftest.reservation_state r1 <> Conftest.reservation_state r3 /\
    Conftest.reservation_state r2 <> Conftest.reservation_state r3.
Proof.
  cbv zeta.
  assert (exists row, fixture_table.2 !! fixture_table.1 = Some row)
    as [row Hrow]
    by (eexists; unfold fixture_table, Conftest.connection_id_fixture;
        cbn [fst snd]; apply lookup_insert_eq).
  exact (proj2 (proj2 (proj2 (proj2 reservation_states_exact)))
           fixture_table.1 fixture_table.2 row Hrow).
Defined.

(** *** The store keeps every record under its own identifier *)

Lemma wf_empty : wf ∅.
Proof. intros cid c H. by rewrite lookup_empty in H. Qed.

Lemma wf_insert (store : Store) (c : Connection) :
  wf store -> wf (<[connectionId c := c]> store).
Proof.
  intros Hwf cid c' H. destruct (decide (connectionId c = cid)) as [<-|Hne].
  - rewrite lookup_insert_eq in H. by injection H as <-.
  - rewrite lookup_insert_ne in H by done. by apply Hwf.
Qed.

(** What an operation on an existing connection does to the store. *)
Lemma apply_op_run (cid : ConnectionId) (v : Z) (op : Op) (up : bool)
    (store : Store) :
  wf store ->
  match apply_op cid v op up store with
  | (Accepted c', store') =>
      exists c, store !! cid = Some c /\ version c = v /\
                version c' = version c + 1 /\ connectionId c' = cid /\
                store' = <[cid := c']> store
  | (Rejected _, store') => store' = store
  end.
Proof.
  intros Hwf. unfold apply_op.
  destruct (store !! cid) as [c|] eqn:Hc; [|done].
  repeat case_bool_decide; try done.
  destruct (drive (states_of c) op) as [s'|]; [|done].
  destruct up; [|done].
  pose proof (Hwf _ _ Hc) as Hid.
  unfold update. cbn [with_states connectionId]. rewrite Hid, Hc.
  assert (version c = v) as Hv by (destruct (decide (version c = v)); done).
  rewrite bool_decide_eq_true_2 by done.
  exists c. by repeat split.
Qed.

(** What a reserve request does to the store. *)
Lemma reserve_run (r : ReserveRequest) (up : bool) (store : Store) :
  wf store ->
  match reserve r up store with
  | (Accepted c', store') =>
      store' = <[connectionId c' := c']> store /\
      ((r_connectionId r = None /\ store !! connectionId c' = None /\
        version c' = 0 /\ reservationState c' = ReserveChecking) \/
       (exists c, r_connectionId r = Some (connectionId c') /\
                  store !! connectionId c' = Some c /\
                  version c' = version c + 1))
  | (Rejected _, store') => store' = store
  end.
Proof.
  intros Hwf. unfold reserve.
  destruct (decide (malformed r)); [done|].
  destruct (endpoint_of (r_source r)) as [src|]; [|done].
  destruct (endpoint_of (r_destination r)) as [dst|]; [|done].
  destruct (r_connectionId r) as [cid|].
  - destruct (r_expectedVersion r) as [v|]; [|done].
    pose proof (apply_op_run cid v (OpReservation RsmReserve) up store Hwf)
      as H.
    destruct (apply_op cid v (OpReservation RsmReserve) up store)
      as [[c'|e] store']; [|done].
    destruct H as (c & Hc & _ & Hv & Hid & ->). subst cid.
    split; [done|]. right. by exists c.
  - destruct up; [|done]. unfold create. cbn [connectionId version].
    split; [done|]. left. repeat split.
    apply not_elem_of_dom, is_fresh.
Qed.

Lemma serve_request_wf (q : Request) (store : Store) :
  wf store -> wf (serve_request q store).2.
Proof.
  intros Hwf. destruct q as [r up|cid v op up]; cbn [serve_request].
  - pose proof (reserve_run r up store Hwf) as H.
    destruct (reserve r up store) as [[c'|e] store']; cbn [snd].
    + destruct H as [-> _]. by apply wf_insert.
    + by subst.
  - pose proof (apply_op_run cid v op up store Hwf) as H.
    destruct (apply_op cid v op up store) as [[c'|e] store']; cbn [snd].
    + destruct H as (c & _ & _ & _ & <- & ->). by apply wf_insert.
    + by subst.
Qed.

Lemma serve_requests_wf (qs : list Request) (store : Store) :
  wf store -> wf (serve_requests qs store).
Proof.
  revert store. induction qs as [|q qs IH]; intros store Hwf; [done|].
  apply IH, serve_request_wf, Hwf.
Qed.

(** A request never removes a record and never lowers its version. *)
Lemma serve_request_monotone (q : Request) (store : Store)
    (cid : ConnectionId) (c : Connection) :
  wf store -> store !! cid = Some c ->
  exists c', (serve_request q store).2 !! cid = Some c' /\
             version c <= version c'.
Proof.
  intros Hwf Hc. destruct q as [r up|cid' v op up]; cbn [serve_request].
  - pose proof (reserve_run r up store Hwf) as H.
    destruct (reserve r up store) as [[c'|e] store']; cbn [snd];
      [|subst; exists c; split; [done|lia]].
    destruct H as [-> H].
    destruct (decide (connectionId c' = cid)) as [<-|Hne];
      [|exists c; rewrite lookup_insert_ne by done; split; [done|lia]].
    exists c'. rewrite lookup_insert_eq. split; [done|].
    destruct H as [(_ & Hnone & _)|(c0 & _ & Hc0 & Hv)]; [congruence|].
    rewrite Hc in Hc0. injection Hc0 as <-. lia.
  - pose proof (apply_op_run cid' v op up store Hwf) as H.
    destruct (apply_op cid' v op up store) as [[c'|e] store']; cbn [snd];
      [|subst; exists c; split; [done|lia]].
    destruct H as (c0 & Hc0 & _ & Hv & _ & ->).
    destruct (decide (cid' = cid)) as [->|Hne];
      [|exists c; rewrite lookup_insert_ne by done; split; [done|lia]].
    exists c'. rewrite lookup_insert_eq. split; [done|].
    rewrite Hc in Hc0. injection Hc0 as <-. lia.
Qed.

Lemma serve_requests_monotone (qs : list Request) (store : Store)
    (cid : ConnectionId) (c : Connection) :
  wf store -> store !! cid = Some c ->
  exists c', serve_requests qs store !! cid = Some c' /\
             version c <= version c'.
Proof.
  revert store c. induction qs as [|q qs IH]; intros store c Hwf Hc.
  - exists c. split; [done|lia].
  - destruct (serve_request_monotone q store cid c Hwf Hc) as (c1 & Hc1 & Hle).
    destruct (IH _ c1 (serve_request_wf q store Hwf) Hc1) as (c2 & Hc2 & Hle2).
    exists c2. split; [exact Hc2|lia].
Qed.

Lemma serve_requests_app (qs1 qs2 : list Request) (store : Store) :
  serve_requests (qs1 ++ qs2) store =
  serve_requests qs2 (serve_requests qs1 store).
Proof. unfold serve_requests. apply foldl_app. Qed.

(** The row that the fixture [connection_id] adds to the table. *)
Lemma connection_id_fixture_row (default_state uuid : string) (now1 now2 : Z)
    (table : Conftest.Table) :
  let '(id, table') :=
    Conftest.connection_id_fixture default_state uuid now1 now2 table in
  table !! id = None /\
  exists row,
    table' = <[id := row]> table /\
    Conftest.connection_id row = Some id /\
    Conftest.version row = 0 /\ Conftest.bandwidth row = 10 /\
    Conftest.start_time row = now1 + 600 /\
    Conftest.end_time row = now2 + 1200.
Proof.
  unfold Conftest.connection_id_fixture. split.
  - apply not_elem_of_dom, is_fresh.
  - eexists. split; [reflexivity|]. cbn. unfold Conftest.minutes.
    repeat split; lia.
Qed.

(** *** The claims about the core *)

(** The scenarios of section 8, run on the model: reserve, the internal
    [confirmed], reserveCommit and its [confirmed] take the version from 0
    to 3 and the reservation back to [ReserveStart]. *)
Example scenario_reserve_commit :
  let store :=
    serve_requests
      [ReqReserve (scenario_request 0 10) true;
       ReqOp 0%nat 0 (OpReservation RsmConfirmed) true;
       ReqOp 0%nat 1 (OpReservation RsmCommit) true;
       ReqOp 0%nat 2 (OpReservation RsmConfirmed) true] ∅ in
  (fun c => (version c, reservationState c, committed c)) <$> store !! 0%nat
  = Some (3, ReserveStart, true).
Proof. by vm_compute. Qed.

(** C5: a reserve request with bandwidth 10, start ten minutes and end
    twenty minutes from now, that names no connection and has its endpoints
    complete, is accepted by a store that is up: the store gets one new
    record, under an identifier that the store had not used and assigns
    itself, in state [ReserveChecking] and at version 0.  The fixture
    [connection_id] of the tests inserts a row with the same bandwidth and
    times at version 0, under a key that the database generates. *)
Theorem initial_reserve_creates_record :
  (forall (r : ReserveRequest) (now : Z) (store : Store),
      r_connectionId r = None -> r_bandwidth r = 10 ->
      r_startTime r = now + 600 -> r_endTime r = now + 1200 ->
      is_Some (endpoint_of (r_source r)) ->
      is_Some (endpoint_of (r_destination r)) ->
      exists c,
        reserve r true store = (Accepted c, <[connectionId c := c]> store) /\
        connectionId c = fresh (dom store) /\
        store !! connectionId c = None /\
        reservationState c = ReserveChecking /\ version c = 0 /\
        bandwidth c = 10 /\ startTime c = now + 600 /\
        endTime c = now + 1200) /\
  (forall (default_state uuid : string) (now1 now2 : Z)
          (table : Conftest.Table),
      let '(id, table') :=
        Conftest.connection_id_fixture default_state uuid now1 now2 table in
      table !! id = None /\
      exists row,
        table' = <[id := row]> table /\
        Conftest.connection_id row = Some id /\
        Conftest.version row = 0 /\ Conftest.bandwidth row = 10 /\
        Conftest.start_time row = now1 + 600 /\
        Conftest.end_time row = now2 + 1200).
Proof.
  split; [|apply connection_id_fixture_row].
  intros r now store Hid Hbw Hstart Hend [src Hsrc] [dst Hdst].
  unfold reserve.
  destruct (decide (malformed r)) as [Hbad|_].
  { exfalso. unfold malformed in Hbad. rewrite Hsrc, Hdst in Hbad.
    destruct Hbad as [?|[?|[?|?]]]; try discriminate; lia. }
  rewrite Hsrc, Hdst, Hid. unfold create. cbv beta iota zeta.
  match goal with |- exists c, (Accepted ?x, _) = _ /\ _ => exists x end.
  split; [reflexivity|].
  cbn [connectionId reservationState version bandwidth startTime endTime].
  repeat split; try done. apply not_elem_of_dom, is_fresh.
Qed.

(** The scenario of section 8 on the empty store. *)
Lemma initial_reserve_creates_record_witness :
  exists c,
    reserve (scenario_request 0 10) true ∅ =
      (Accepted c, <[connectionId c := c]> ∅) /\
    connectionId c = fresh (dom (∅ : Store)) /\
    (∅ : Store) !! connectionId c = None /\
    reservationState c = ReserveChecking /\ version c = 0 /\
    bandwidth c = 10 /\ startTime c = 0 + 600 /\ endTime c = 0 + 1200.
Proof.
  apply (proj1 initial_reserve_creates_record (scenario_request 0 10) 0 ∅);
    cbn; try reflexivity; eexists; reflexivity.
Defined.

(** C6: an operation on a connection record that succeeds leaves the record
    with the version it had plus one, and one that is rejected leaves the
    store as it was; a record that a reserve request creates starts at
    version 0, as does the row of the fixture [connection_id]; and through
    any sequence of requests a record stays in the store with a version
    that is never lower than before. *)
Theorem version_counts_successful_operations :
  (forall (qs : list Request) (cid : ConnectionId) (v : Z) (op : Op)
          (up : bool),
      let store := serve_requests qs ∅ in
      match apply_op cid v op up store with
      | (Accepted c', store') =>
          exists c, store !! cid = Some c /\ store' !! cid = Some c' /\
                    version c' = version c + 1
      | (Rejected _, store') => store' = store
      end) /\
  (forall (qs : list Request) (r : ReserveRequest) (up : bool),
      let store := serve_requests qs ∅ in
      match reserve r up store with
      | (Accepted c', store') =>
          store' !! connectionId c' = Some c' /\
          ((store !! connectionId c' = None /\ version c' = 0) \/
           (exists c, store !! connectionId c' = Some c /\
                      version c' = version c + 1))
      | (Rejected _, store') => store' = store
      end) /\
  (forall (qs qs' : list Request) (cid : ConnectionId) (c : Connection),
      serve_requests qs ∅ !! cid = Some c ->
      exists c', serve_requests (qs ++ qs') ∅ !! cid = Some c' /\
                 version c <= version c') /\
  (forall (default_state uuid : string) (now1 now2 : Z)
          (table : Conftest.Table),
      let '(id, table') :=
        Conftest.connection_id_fixture default_state uuid now1 now2 table in
      Conftest.version <$> table' !! id = Some 0).
Proof.
  repeat split.
  - intros qs cid v op up store.
    pose proof (apply_op_run cid v op up store
                  (serve_requests_wf qs ∅ wf_empty)) as H.
    destruct (apply_op cid v op up store) as [[c'|e] store']; [|done].
    destruct H as (c & Hc & _ & Hv & _ & ->).
    exists c. by rewrite lookup_insert_eq.
  - intros qs r up store.
    pose proof (reserve_run r up store (serve_requests_wf qs ∅ wf_empty))
      as H.
    destruct (reserve r up store) as [[c'|e] store']; [|done].
    destruct H as [-> H]. rewrite lookup_insert_eq. split; [done|].
    destruct H as [(_ & Hnone & Hv & _)|(c & _ & Hc & Hv)];
      [by left|right; by exists c].
  - intros qs qs' cid c Hc. rewrite serve_requests_app.
    by apply serve_requests_monotone; [apply serve_requests_wf, wf_empty|].
  - intros default_state uuid now1 now2 table.
    unfold Conftest.connection_id_fixture. by rewrite lookup_insert_eq.
Qed.

(** C6 on the scenario of section 8: the record that the reserve request
    creates is still there after the internal [confirmed], at a version
    that is not lower. *)
Lemma version_counts_successful_operations_witness :
  let qs := [ReqReserve (scenario_request 0 10) true] in
  let qs' := [ReqOp 0%nat 0 (OpReservation RsmConfirmed) true] in
  exists c c',
    serve_requests qs ∅ !! 0%nat = Some c /\
    serve_requests (qs ++ qs') ∅ !! 0%nat = Some c' /\
    version c <= version c'.
Proof.
  cbv zeta.
  assert (exists c, serve_requests [ReqReserve (scenario_request 0 10) true] ∅
                      !! 0%nat = Some c) as [c Hc]
    by (vm_compute; eexists; reflexivity).
  destruct (proj1 (proj2 (proj2 version_counts_successful_operations))
              [ReqReserve (scenario_request 0 10) true]
              [ReqOp 0%nat 0 (OpReservation RsmConfirmed) true] 0%nat c Hc)
    as (c' & Hc' & Hle).
  exists c, c'. split; [exact Hc|]. split; [exact Hc'|exact Hle].
Defined.

(** C7: a reserve request with a bandwidth that is not positive, with
    [endTime <= startTime] or with a mandatory field of an endpoint missing
    is rejected with [ValidationError] whatever the store holds and whether
    it is up or not, and the store is left as it was: no record is created
    or changed and no machine is driven. *)
Theorem malformed_reserve_is_rejected (r : ReserveRequest) (up : bool)
    (store : Store) :
  malformed r -> reserve r up store = (Rejected ValidationError, store).
Proof. intros Hbad. unfold reserve. by rewrite decide_True. Qed.

(** The request of the scenario with bandwidth 0, on the empty store. *)
Lemma malformed_reserve_is_rejected_witness :
  malformed (scenario_request 0 0) /\
  reserve (scenario_request 0 0) true ∅ = (Rejected ValidationError, ∅).
Proof.
  assert (malformed (scenario_request 0 0)) as Hbad by (left; cbn; lia).
  split; [exact Hbad|].
  exact (malformed_reserve_is_rejected (scenario_request 0 0) true ∅ Hbad).
Defined.

End CoreProofs.

(** ** Further properties of main.py *)

Module MainExtra.
Import Main MainSpec Subcommand ExtraSpec MainProofs.

(** *** The callbacks, option by option *)

Lemma option_writes_value (o : CommonOption) :
  option_writes o =
  match option_value o with
  | Some v => [(attr_of (option_kind o), v)]
  | None => []
  end.
Proof. by destruct o as [[v|]|[v|]|[v|]]. Qed.

Lemma run_callback_full (o : CommonOption) (w : World) :
  run_callback o w =
  (Ok tt, mkWorld (Some (set_option o (cos_of w)))
                  (apply_writes (option_writes o) (settings w))
                  (trace w ++ (write_event <$> option_writes o))).
Proof.
  destruct o as [v|v|v]; unfold run_callback; rewrite bind_run;
    [rewrite database_file_callback_run
    |rewrite scheduler_max_workers_callback_run
    |rewrite domain_name_callback_run];
    destruct v; cbn [option_writes apply_writes foldl fmap list_fmap
                     write_event fst snd set_option];
    by rewrite ?app_nil_r.
Qed.

Lemma cos_of_mkWorld (c : CommonOptionsState) (s : AttrStore)
    (t : list Event) : cos_of (mkWorld (Some c) s t) = c.
Proof. reflexivity. Qed.

Lemma process_params_full (ps : list CommonOption) (w : World) :
  process_params ps w =
  (Ok tt,
   mkWorld (match ps with
            | [] => ctx_obj w
            | _ => Some (cos_after ps (cos_of w))
            end)
           (apply_writes (parsed_writes ps) (settings w))
           (trace w ++ (write_event <$> parsed_writes ps))).
Proof.
  revert w. induction ps as [|p ps IH]; intros w.
  - destruct w. cbn. by rewrite app_nil_r.
  - cbn [process_params]. rewrite bind_run, run_callback_full, IH.
    cbn [settings trace ctx_obj]. rewrite cos_of_mkWorld.
    unfold parsed_writes. cbn [mbind list_bind].
    rewrite apply_writes_app, fmap_app, app_assoc.
    by destruct ps.
Qed.

Lemma cos_of_process_params (ps : list CommonOption) (w : World) :
  cos_of (exec (process_params ps) w) = cos_after ps (cos_of w).
Proof.
  unfold exec. rewrite process_params_full. by destruct ps.
Qed.

Lemma attr_of_inj (k1 k2 : OptionKind) : attr_of k1 = attr_of k2 -> k1 = k2.
Proof. destruct k1, k2; cbn; intros H; first [done | discriminate H]. Qed.

Lemma set_option_field (o : CommonOption) (cos : CommonOptionsState)
    (k : OptionKind) :
  field_of k (set_option o cos) =
  match option_value o with
  | Some v => if decide (k = option_kind o) then Some v else field_of k cos
  | None => field_of k cos
  end.
Proof. by destruct o as [[v|]|[v|]|[v|]], k. Qed.

Lemma option_writes_lookup (o : CommonOption) (s : AttrStore) (a : string) :
  apply_writes (option_writes o) s !! a =
  match option_value o with
  | Some v => if decide (a = attr_of (option_kind o)) then Some v else s !! a
  | None => s !! a
  end.
Proof.
  rewrite option_writes_value. destruct (option_value o) as [v|]; [|done].
  cbn. rewrite lookup_insert. repeat case_decide; congruence.
Qed.

(** X1: called with a value that is not [None], a callback stores the value
    in its own field of the [CommonOptionsState] and in its own attribute
    of [settings], with one write, and leaves the other fields and every
    other attribute as they were. *)
Theorem callback_stores_value_in_both (o : CommonOption) (v : PyVal)
    (w : World) :
  option_value o = Some v ->
  let w' := exec (run_callback o) w in
  field_of (option_kind o) (cos_of w') = Some v /\
  settings w' !! attr_of (option_kind o) = Some v /\
  (forall k, k <> option_kind o ->
             field_of k (cos_of w') = field_of k (cos_of w)) /\
  (forall a, a <> attr_of (option_kind o) ->
             settings w' !! a = settings w !! a) /\
  trace w' = trace w ++ [EvSetAttr (attr_of (option_kind o)) v].
Proof.
  intros Hv w'. subst w'. unfold exec. rewrite run_callback_full.
  cbn [snd settings trace]. rewrite cos_of_mkWorld.
  split; [rewrite set_option_field, Hv; by rewrite decide_True|].
  split; [rewrite option_writes_lookup, Hv; by rewrite decide_True|].
  split; [intros k Hk; rewrite set_option_field, Hv; by rewrite decide_False|].
  split; [intros a Ha; rewrite option_writes_lookup, Hv;
          by rewrite decide_False|].
  by rewrite option_writes_value, Hv.
Qed.

Lemma callback_stores_value_in_both_witness :
  let w := mkWorld None ambient_settings_1 [] in
  let w' := exec (run_callback (OptDomainName (Some "example.domain"))) w in
  option_value (OptDomainName (Some "example.domain")) =
    Some (VStr "example.domain") /\
  field_of KDomainName (cos_of w') = Some (VStr "example.domain") /\
  settings w' !! "domain_name" = Some (VStr "example.domain") /\
  settings w' !! "database_file" = settings w !! "database_file".
Proof.
  cbv zeta.
  destruct (callback_stores_value_in_both
              (OptDomainName (Some "example.domain"))
              (VStr "example.domain")
              (mkWorld None ambient_settings_1 []) eq_refl)
    as (Hf & Hs & _ & Hother & _).
  split; [reflexivity|]. split; [exact Hf|]. split; [exact Hs|].
  apply Hother. discriminate.
Defined.

(** *** The options object and [settings] stay in step *)

Lemma mirrors_step (o : CommonOption) (cos : CommonOptionsState)
    (s : AttrStore) :
  mirrors cos s ->
  mirrors (set_option o cos) (apply_writes (option_writes o) s).
Proof.
  intros Hm k v. rewrite set_option_field, option_writes_lookup.
  destruct (option_value o) as [v'|]; [|apply Hm].
  destruct (decide (k = option_kind o)) as [->|Hne].
  - by rewrite decide_True.
  - rewrite decide_False; [apply Hm|]. intros H. by apply attr_of_inj in H.
Qed.

Lemma mirrors_after (ps : list CommonOption) (cos : CommonOptionsState)
    (s : AttrStore) :
  mirrors cos s ->
  mirrors (cos_after ps cos) (apply_writes (parsed_writes ps) s).
Proof.
  revert cos s. induction ps as [|p ps IH]; intros cos s Hm; [done|].
  unfold parsed_writes. cbn [mbind list_bind cos_after foldl].
  rewrite apply_writes_app. apply IH, mirrors_step, Hm.
Qed.

(** X2: the callbacks keep the [CommonOptionsState] and [settings] in
    step.  When every field of the options object that is not [None] is
    the value of its attribute of [settings] before the options are
    processed, as it is in a context that has no options object yet, the
    same holds afterwards, whatever options are processed in whatever
    order. *)
Theorem parse_keeps_options_and_settings_in_step (ps : list CommonOption)
    (w : World) :
  mirrors (cos_of w) (settings w) ->
  mirrors (cos_of (exec (process_params ps) w))
          (settings (exec (process_params ps) w)).
Proof.
  intros Hm. rewrite cos_of_process_params.
  unfold exec. rewrite process_params_full. cbn [snd settings].
  by apply mirrors_after.
Qed.

Lemma parse_keeps_options_and_settings_in_step_witness :
  let ps := [OptDatabaseFile (Some "supa.db"); OptSchedulerMaxWorkers None;
             OptDomainName (Some "example.domain")] in
  let w := mkWorld None ambient_settings_1 [] in
  mirrors (cos_of w) (settings w) /\
  mirrors (cos_of (exec (process_params ps) w))
          (settings (exec (process_params ps) w)).
Proof.
  cbv zeta.
  assert (mirrors (cos_of (mkWorld None ambient_settings_1 []))
                  (settings (mkWorld None ambient_settings_1 []))) as Hm
    by (intros [] v H; discriminate H).
  split; [exact Hm|].
  exact (parse_keeps_options_and_settings_in_step _ _ Hm).
Defined.

(** *** The order of the options *)

Lemma set_option_comm (o1 o2 : CommonOption) (cos : CommonOptionsState) :
  option_kind o1 <> option_kind o2 ->
  set_option o1 (set_option o2 cos) = set_option o2 (set_option o1 cos).
Proof. by destruct o1 as [[v1|]|[v1|]|[v1|]], o2 as [[v2|]|[v2|]|[v2|]]. Qed.

Lemma option_writes_comm (o1 o2 : CommonOption) (s : AttrStore) :
  option_kind o1 <> option_kind o2 ->
  apply_writes (option_writes o1) (apply_writes (option_writes o2) s) =
  apply_writes (option_writes o2) (apply_writes (option_writes o1) s).
Proof.
  intros Hne. apply map_eq. intros a. rewrite !option_writes_lookup.
  destruct (option_value o1) as [v1|], (option_value o2) as [v2|];
    try done.
  repeat case_decide; try done. subst a.
  match goal with H : attr_of _ = attr_of _ |- _ => apply attr_of_inj in H end.
  congruence.
Qed.

Lemma parsed_writes_cons (p : CommonOption) (ps : list CommonOption) :
  parsed_writes (p :: ps) = option_writes p ++ parsed_writes ps.
Proof. reflexivity. Qed.

Lemma parse_permutation (ps ps' : list CommonOption) :
  ps ≡ₚ ps' -> NoDup (option_kind <$> ps) ->
  forall cos s,
    cos_after ps cos = cos_after ps' cos /\
    apply_writes (parsed_writes ps) s = apply_writes (parsed_writes ps') s.
Proof.
  induction 1 as [|x l l' Hl IH|x y l|l1 l2 l3 H12 IH12 H23 IH23];
    intros Hnd cos s.
  - done.
  - cbn in Hnd. apply NoDup_cons in Hnd as [_ Hnd].
    rewrite !parsed_writes_cons, !apply_writes_app.
    cbn [cos_after foldl]. apply (IH Hnd).
  - cbn in Hnd. apply NoDup_cons in Hnd as [Hy _].
    apply not_elem_of_cons in Hy as [Hne _].
    rewrite !parsed_writes_cons, !apply_writes_app.
    cbn [cos_after foldl].
    by rewrite (set_option_comm x y), (option_writes_comm x y).
  - destruct (IH12 Hnd cos s) as [-> ->]. apply IH23.
    by rewrite <- H12.
Qed.

(** X3: the order in which Click processes the options does not matter.
    Two runs of the callbacks over the same options, each option at most
    once, in different orders, leave the same [settings] and the same
    [CommonOptionsState] in the context. *)
Theorem parse_order_is_irrelevant (ps ps' : list CommonOption) (w : World) :
  NoDup (option_kind <$> ps) -> ps ≡ₚ ps' ->
  settings (exec (process_params ps) w) =
    settings (exec (process_params ps') w) /\
  ctx_obj (exec (process_params ps) w) =
    ctx_obj (exec (process_params ps') w) /\
  result (process_params ps) w = result (process_params ps') w.
Proof.
  intros Hnd Hp. unfold exec, result. rewrite !process_params_full.
  cbn [fst snd settings ctx_obj].
  destruct (parse_permutation ps ps' Hp Hnd (cos_of w) (settings w))
    as [Hc Hs].
  split; [exact Hs|]. split; [|done].
  destruct ps as [|p ps].
  - apply Permutation_nil_l in Hp. by subst.
  - destruct ps' as [|p' ps']; [by apply Permutation_nil_r in Hp|].
    by rewrite Hc.
Qed.

Lemma parse_order_is_irrelevant_witness :
  let ps := [OptDatabaseFile (Some "supa.db");
             OptDomainName (Some "example.domain")] in
  let ps' := [OptDomainName (Some "example.domain");
              OptDatabaseFile (Some "supa.db")] in
  let w := mkWorld None ∅ [] in
  NoDup (option_kind <$> ps) /\ ps ≡ₚ ps' /\
  settings (exec (process_params ps) w) =
    settings (exec (process_params ps') w) /\
  ctx_obj (exec (process_params ps) w) =
    ctx_obj (exec (process_params ps') w).
Proof.
  cbv zeta.
  assert (NoDup (option_kind <$>
                   [OptDatabaseFile (Some "supa.db");
                    OptDomainName (Some "example.domain")])) as Hnd
    by (by apply (bool_decide_unpack _)).
  assert ([OptDatabaseFile (Some "supa.db");
           OptDomainName (Some "example.domain")] ≡ₚ
          [OptDomainName (Some "example.domain");
           OptDatabaseFile (Some "supa.db")]) as Hp by apply perm_swap.
  destruct (parse_order_is_irrelevant _ _ (mkWorld None ∅ []) Hnd Hp)
    as (Hs & Hc & _).
  split; [exact Hnd|]. split; [exact Hp|]. split; [exact Hs|exact Hc].
Defined.

(** *** What the function of a sub-command and [init_app] find *)

Lemma cos_after_absent (ps : list CommonOption) (cos : CommonOptionsState)
    (k : OptionKind) :
  k ∉ option_kind <$> ps -> field_of k (cos_after ps cos) = field_of k cos.
Proof.
  revert cos. induction ps as [|p ps IH]; intros cos Hk; [done|].
  cbn in Hk. apply not_elem_of_cons in Hk as [Hne Hk].
  cbn [cos_after foldl]. fold (cos_after ps (set_option p cos)).
  rewrite (IH _ Hk), set_option_field.
  destruct (option_value p); [by rewrite decide_False|done].
Qed.

Lemma cos_after_given (ps : list CommonOption) (cos : CommonOptionsState)
    (o : CommonOption) (v : PyVal) :
  NoDup (option_kind <$> ps) -> o ∈ ps -> option_value o = Some v ->
  field_of (option_kind o) (cos_after ps cos) = Some v.
Proof.
  revert cos. induction ps as [|p ps IH]; intros cos Hnd Ho Hv.
  - by apply elem_of_nil in Ho.
  - cbn in Hnd. apply NoDup_cons in Hnd as [Hp Hnd].
    cbn [cos_after foldl]. fold (cos_after ps (set_option p cos)).
    apply elem_of_cons in Ho as [->|Ho]; [|by apply IH].
    rewrite (cos_after_absent _ _ _ Hp), set_option_field, Hv.
    by rewrite decide_True.
Qed.

Lemma parsed_writes_absent (ps : list CommonOption) (k : OptionKind) :
  k ∉ option_kind <$> ps -> attr_of k ∉ (parsed_writes ps).*1.
Proof.
  induction ps as [|p ps IH]; intros Hk; [apply not_elem_of_nil|].
  cbn in Hk. apply not_elem_of_cons in Hk as [Hne Hk].
  rewrite parsed_writes_cons, fmap_app, option_writes_value.
  apply not_elem_of_app. split; [|by apply IH].
  destruct (option_value p); [|apply not_elem_of_nil].
  cbn. apply not_elem_of_cons. split; [|apply not_elem_of_nil].
  intros H. by apply attr_of_inj in H.
Qed.

Lemma parsed_writes_given (ps : list CommonOption) (s : AttrStore)
    (o : CommonOption) (v : PyVal) :
  NoDup (option_kind <$> ps) -> o ∈ ps -> option_value o = Some v ->
  apply_writes (parsed_writes ps) s !! attr_of (option_kind o) = Some v.
Proof.
  revert s. induction ps as [|p ps IH]; intros s Hnd Ho Hv.
  - by apply elem_of_nil in Ho.
  - cbn in Hnd. apply NoDup_cons in Hnd as [Hp Hnd].
    rewrite parsed_writes_cons, apply_writes_app.
    apply elem_of_cons in Ho as [->|Ho]; [|by apply IH].
    rewrite apply_writes_lookup_other by by apply parsed_writes_absent.
    rewrite option_writes_lookup, Hv. by rewrite decide_True.
Qed.

(** X4: the function of a sub-command under [@common_options] and
    [@pass_common_options_state] is called, after the callbacks, with the
    [CommonOptionsState] of the context.  Of the options processed, each at
    most once, one that has a value is found in its field of that object;
    the field of an option that has no value, or that is not processed, is
    what the context had before. *)
Theorem sub_command_receives_the_options {A} (ps : list CommonOption)
    (f : CommonOptionsState -> M A) (w : World) :
  NoDup (option_kind <$> ps) ->
  exists cos,
    invoke_sub_command ps f w =
    f cos (mkWorld (Some cos) (apply_writes (parsed_writes ps) (settings w))
                   (trace w ++ (write_event <$> parsed_writes ps))) /\
    (forall o v, o ∈ ps -> option_value o = Some v ->
                 field_of (option_kind o) cos = Some v) /\
    (forall k, (forall o, o ∈ ps -> option_kind o = k ->
                          option_value o = None) ->
               field_of k cos = field_of k (cos_of w)).
Proof.
  intros Hnd. exists (cos_after ps (cos_of w)). split; [|split].
  - unfold invoke_sub_command, pass_common_options_state.
    rewrite bind_run, process_params_full, bind_run, ensure_object_run.
    cbn [settings trace]. by destruct ps.
  - intros o v Ho Hv. by apply cos_after_given.
  - intros k Hk. clear Hnd. revert Hk. generalize (cos_of w).
    induction ps as [|p ps IH]; intros cos Hk; [done|].
    cbn [cos_after foldl]. fold (cos_after ps (set_option p cos)).
    rewrite IH by (intros o Ho; apply Hk; by apply list_elem_of_further).
    rewrite set_option_field.
    destruct (option_value p) as [v|] eqn:Hv; [|done].
    case_decide as Hkp; [|done].
    rewrite (Hk p (list_elem_of_here _ _) (eq_sym Hkp)) in Hv. discriminate.
Qed.

Lemma sub_command_receives_the_options_witness :
  let ps := [OptDatabaseFile (Some "supa.db"); OptSchedulerMaxWorkers None] in
  NoDup (option_kind <$> ps) /\
  exists cos,
    result (invoke_sub_command ps report_options) (mkWorld None ∅ []) =
      Ok cos /\
    field_of KDatabaseFile cos = Some (VPath "supa.db") /\
    field_of KSchedulerMaxWorkers cos = None /\
    field_of KDomainName cos = None.
Proof.
  cbv zeta.
  assert (NoDup (option_kind <$>
                   [OptDatabaseFile (Some "supa.db");
                    OptSchedulerMaxWorkers None])) as Hnd
    by (by apply (bool_decide_unpack _)).
  split; [exact Hnd|].
  destruct (sub_command_receives_the_options _ report_options
              (mkWorld None ∅ []) Hnd) as (cos & Hrun & Hgiven & Hnot).
  exists cos. split; [unfold result; by rewrite Hrun|].
  split; [apply (Hgiven (OptDatabaseFile (Some "supa.db")));
          [apply list_elem_of_here|reflexivity]|].
  split; (rewrite Hnot; [reflexivity|]); intros o Ho Hk;
    repeat in_concrete_list; subst o; first [discriminate Hk | reflexivity].
Defined.

(** X5: [init_app] finds in [settings] every value given on the command
    line.  In an invocation of [serve] with each common option at most
    once, an option that has a value is the value of its attribute of the
    [settings] that [init_app] is called on; the two assignments of
    [serve] do not touch it. *)
Theorem init_app_sees_the_command_line
    (body : AttrStore -> outcome unit * AttrStore)
    (binds : PyVal -> outcome unit)
    (ps : list CommonOption) (n : Z) (a : string) (w : World)
    (o : CommonOption) (v : PyVal) :
  NoDup (option_kind <$> ps) -> o ∈ ps -> option_value o = Some v ->
  exists pre s post,
    trace (exec (invoke_serve body binds ps n a) w) =
      trace w ++ pre ++ EvInitApp s :: post /\
    s !! attr_of (option_kind o) = Some v /\
    s !! "grpc_max_workers" = Some (VInt n) /\
    s !! "grpc_insecure_address_port" = Some (VStr a).
Proof.
  intros Hnd Ho Hv.
  destruct (invoke_serve_full body binds ps n a w) as (c & Hrun).
  eexists _, _, _. unfold exec. rewrite Hrun. cbn [snd trace].
  split; [reflexivity|].
  rewrite apply_writes_app.
  change (apply_writes (serve_writes n a) ?s)
    with (<["grpc_insecure_address_port" := VStr a]>
            (<["grpc_max_workers" := VInt n]> s)).
  split; [|split].
  - rewrite !lookup_insert_ne by by destruct o.
    by apply parsed_writes_given.
  - rewrite lookup_insert_ne by done. apply lookup_insert_eq.
  - apply lookup_insert_eq.
Qed.

Lemma init_app_sees_the_command_line_witness :
  let ps := [OptDomainName (Some "example.domain");
             OptDatabaseFile (Some "supa.db")] in
  let o := OptDatabaseFile (Some "supa.db") in
  NoDup (option_kind <$> ps) /\ o ∈ ps /\
  option_value o = Some (VPath "supa.db") /\
  exists pre s post,
    trace (exec (invoke_serve quiet_init_app any_address ps 8 "[::]:50051")
                (mkWorld None ambient_settings_1 [])) =
      pre ++ EvInitApp s :: post /\
    s !! "database_file" = Some (VPath "supa.db").
Proof.
  cbv zeta.
  assert (NoDup (option_kind <$>
                   [OptDomainName (Some "example.domain");
                    OptDatabaseFile (Some "supa.db")])) as Hnd
    by (by apply (bool_decide_unpack _)).
  assert (OptDatabaseFile (Some "supa.db") ∈
            [OptDomainName (Some "example.domain");
             OptDatabaseFile (Some "supa.db")]) as Ho
    by (apply list_elem_of_further, list_elem_of_here).
  split; [exact Hnd|]. split; [exact Ho|]. split; [reflexivity|].
  destruct (init_app_sees_the_command_line quiet_init_app any_address _ 8
              "[::]:50051" (mkWorld None ambient_settings_1 []) _ _
              Hnd Ho eq_refl)
    as (pre & s & post & Ht & Hs & _).
  exists pre, s, post. split; [exact Ht|exact Hs].
Defined.

(** *** [serve] when [init_app] raises *)

(** X6: when [init_app] raises, [serve] ends with that exception right
    there: after the writes of the command line to [settings] and the call
    of [init_app] nothing else happens, so no thread pool, server or
    service is made and no port is opened.  The writes to [settings] are
    not taken back: [settings] is left as [init_app] left it. *)
Theorem serve_stops_when_init_app_raises
    (body : AttrStore -> outcome unit * AttrStore)
    (binds : PyVal -> outcome unit)
    (ps : list CommonOption) (n : Z) (a : string) (w : World) (e : exn) :
  let ws := parsed_writes ps ++ serve_writes n a in
  let s := apply_writes ws (settings w) in
  (body s).1 = Raise e ->
  result (invoke_serve body binds ps n a) w = Raise e /\
  trace (exec (invoke_serve body binds ps n a) w) =
    trace w ++ (write_event <$> ws) ++ [EvInitApp s] /\
  settings (exec (invoke_serve body binds ps n a) w) = (body s).2.
Proof.
  intros ws s Hraise. subst ws s.
  destruct (invoke_serve_full body binds ps n a w) as (c & Hrun).
  unfold result, exec. rewrite Hrun, Hraise. done.
Qed.

Lemma serve_stops_when_init_app_raises_witness :
  let run := invoke_serve failing_init_app any_address
               [OptDatabaseFile (Some "supa.db")] 8 "[::]:50051" in
  let w := mkWorld None ∅ [] in
  result run w = Raise (Exception "unable to open database file") /\
  settings (exec run w) !! "database_file" = Some (VPath "supa.db") /\
  settings (exec run w) !! "grpc_max_workers" = Some (VInt 8).
Proof.
  cbv zeta.
  destruct (serve_stops_when_init_app_raises failing_init_app any_address
              [OptDatabaseFile (Some "supa.db")] 8 "[::]:50051"
              (mkWorld None ∅ [])
              (Exception "unable to open database file") eq_refl)
    as (Hr & _ & Hs).
  split; [exact Hr|]. rewrite Hs. split; by vm_compute.
Defined.

(** *** The declarations *)

Lemma exposed_app (f g : list ClickOption) :
  exposed (f ++ g) = exposed f ++ exposed g.
Proof. unfold exposed. by rewrite filter_app, fmap_app. Qed.

(** X7: [@common_options] declares three options on a command,
    [--domain-name], [--scheduler-max-workers] and [--database-file], and
    adds no argument to its function: the options whose values reach the
    function are those of the command without the decorator. *)
Theorem common_options_add_no_argument (f : list ClickOption) :
  opt_name <$> reverse (common_options f) =
    ["--domain-name"; "--scheduler-max-workers"; "--database-file"] ++
    (opt_name <$> reverse f) /\
  exposed (reverse (common_options f)) = exposed (reverse f) /\
  exposed (common_options f) = exposed f.
Proof.
  unfold common_options, domain_name_option, scheduler_max_workers_option,
    database_file_option, click_option.
  split; [by rewrite !reverse_app|].
  split; [by rewrite !reverse_app|].
  rewrite !exposed_app. cbn. by rewrite !app_nil_r.
Qed.

End MainExtra.

(** ** Properties of the fixtures of tests/conftest.py *)

Module ConftestExtra.
Import Main MainSpec ConftestInit ExtraSpec ConftestSpec MainProofs.

(** *** The rows *)

Lemma assign_state_run (st : Core.ReservationState) (id : nat)
    (table : Conftest.Table) :
  Conftest.assign_state st id table =
  (fun row => <[id := Conftest.set_reservation_state (Core.value st) row]>
                table) <$> table !! id.
Proof. unfold Conftest.assign_state. by destruct (table !! id). Qed.

Lemma state_fixtures_assign
    (P : (nat -> Conftest.Table -> option Conftest.Table) ->
         Core.ReservationState -> Prop) :
  (forall st, P (Conftest.assign_state st) st) ->
  Forall (fun fs => P fs.1 fs.2) state_fixtures.
Proof. intros H. repeat constructor; apply H. Qed.

(** X8: the fixture [connection_id] cleans up after itself.  Deleting the
    row after the [yield] gives back the table that the fixture found, also
    when one of the fixtures [reserve_held], [reserve_committing] or
    [reserve_aborting] has assigned a state to the row in between. *)
Theorem connection_id_fixture_restores_table (default_state uuid : string)
    (now1 now2 : Z) (table : Conftest.Table) :
  let '(id, table') :=
    Conftest.connection_id_fixture default_state uuid now1 now2 table in
  Conftest.connection_id_teardown id table' = table /\
  Forall (fun fs =>
            exists t, fs.1 id table' = Some t /\
                      Conftest.connection_id_teardown id t = table)
         state_fixtures.
Proof.
  unfold Conftest.connection_id_fixture, Conftest.connection_id_teardown.
  assert (table !! fresh (dom table) = None) as Hfresh
    by apply not_elem_of_dom, is_fresh.
  split; [rewrite delete_insert_eq; by apply delete_id|].
  apply (state_fixtures_assign (fun f _ => exists t, f _ _ = Some t /\ _)).
  intros st. rewrite assign_state_run, lookup_insert_eq. cbn [fmap option_fmap option_map].
  eexists. split; [reflexivity|].
  rewrite insert_insert_eq, delete_insert_eq. by apply delete_id.
Qed.

(** X9: a fixture that assigns a state goes through exactly when the table
    has the row.  Then it changes the column [reservation_state] of that
    row and nothing else: the version and the other columns of the row are
    as before (putting the old state back gives the old row) and so is
    every other row.  Without the row it fails and there is no table to go
    on with. *)
Theorem state_fixture_changes_only_the_state :
  Forall (fun fs =>
            forall (id : nat) (table : Conftest.Table),
              (table !! id = None -> fs.1 id table = None) /\
              (forall row, table !! id = Some row ->
                 exists row',
                   fs.1 id table = Some (<[id := row']> table) /\
                   Conftest.reservation_state row' = Core.value fs.2 /\
                   Conftest.version row' = Conftest.version row /\
                   Conftest.set_reservation_state
                     (Conftest.reservation_state row) row' = row))
         state_fixtures.
Proof.
  apply (state_fixtures_assign
           (fun f st => forall id table,
                (_ -> f id table = None) /\
                (forall row, _ -> exists row',
                     f id table = _ /\ _ = Core.value st /\ _))).
  intros st id table. rewrite assign_state_run. split; [by intros ->|].
  intros row ->. eexists. split; [reflexivity|]. by destruct row.
Qed.

Lemma state_fixture_changes_only_the_state_witness :
  let id := fixture_table.1 in
  let table := fixture_table.2 in
  exists row row',
    table !! id = Some row /\
    Conftest.reserve_committing id table = Some (<[id := row']> table) /\
    Conftest.reservation_state row' = "ReserveCommitting" /\
    Conftest.version row' = Conftest.version row.
Proof.
  cbv zeta.
  assert (exists row, fixture_table.2 !! fixture_table.1 = Some row)
    as [row Hrow]
    by (eexists; unfold fixture_table, Conftest.connection_id_fixture;
        cbn [fst snd]; apply lookup_insert_eq).
  pose proof state_fixture_changes_only_the_state as H.
  apply Forall_cons in H as [_ H]. apply Forall_cons in H as [H _].
  destruct (H fixture_table.1 fixture_table.2) as [_ Hrun].
  destruct (Hrun row Hrow) as (row' & Hf & Hst & Hv & _).
  exists row, row'. split; [exact Hrow|]. split; [exact Hf|].
  split; [exact Hst|exact Hv].
Defined.

(** X10: of two fixtures that assign a state to the same row, the later one
    decides: after any of the three, each of the three leaves the table
    that it would have left alone. *)
Theorem last_state_fixture_wins :
  Forall (fun fs1 =>
    Forall (fun fs2 =>
              forall (id : nat) (table t : Conftest.Table),
                fs1.1 id table = Some t ->
                fs2.1 id t = fs2.1 id table)
           state_fixtures)
    state_fixtures.
Proof.
  apply (state_fixtures_assign
           (fun f1 _ => Forall (fun fs2 => forall id table t,
                                    f1 id table = Some t -> _)
                               state_fixtures)).
  intros st1.
  apply (state_fixtures_assign
           (fun f2 _ => forall id table t,
                Conftest.assign_state st1 id table = Some t ->
                f2 id t = f2 id table)).
  intros st2 id table t. rewrite !assign_state_run.
  destruct (table !! id) as [row|]; [|done]. cbn. intros [= <-].
  rewrite lookup_insert_eq. cbn. by rewrite insert_insert_eq.
Qed.

Lemma last_state_fixture_wins_witness :
  let id := fixture_table.1 in
  let table := fixture_table.2 in
  exists t,
    Conftest.reserve_held id table = Some t /\
    Conftest.reserve_aborting id t = Conftest.reserve_aborting id table.
Proof.
  cbv zeta.
  assert (exists t, Conftest.reserve_held fixture_table.1 fixture_table.2
                    = Some t) as [t Ht]
    by (unfold Conftest.reserve_held; rewrite assign_state_run;
        unfold fixture_table, Conftest.connection_id_fixture;
        cbn [fst snd]; rewrite lookup_insert_eq; eexists; reflexivity).
  pose proof last_state_fixture_wins as H.
  apply Forall_cons in H as [H _].
  apply Forall_cons in H as [_ H]. apply Forall_cons in H as [_ H].
  apply Forall_cons in H as [H _].
  exists t. split; [exact Ht|]. exact (H _ _ _ Ht).
Defined.

(** X12: the row of the fixture [connection_id] spans time.  The fixture
    reads the clock twice; when the second reading is not before the first,
    the row ends after it starts, by ten minutes and the time between the
    two readings. *)
Theorem connection_id_fixture_spans_time (default_state uuid : string)
    (now1 now2 : Z) (table : Conftest.Table) :
  now1 <= now2 ->
  let '(id, table') :=
    Conftest.connection_id_fixture default_state uuid now1 now2 table in
  exists row,
    table' !! id = Some row /\
    Conftest.start_time row < Conftest.end_time row /\
    Conftest.end_time row - Conftest.start_time row = 600 + (now2 - now1) /\
    now1 < Conftest.start_time row.
Proof.
  intros Hle. unfold Conftest.connection_id_fixture.
  eexists. split; [apply lookup_insert_eq|].
  cbn. unfold Conftest.minutes. lia.
Qed.

Lemma connection_id_fixture_spans_time_witness :
  1000 <= 1002 /\
  exists row,
    (Conftest.connection_id_fixture "default state" "uuid" 1000 1002 ∅).2
      !! (Conftest.connection_id_fixture "default state" "uuid" 1000 1002 ∅).1
      = Some row /\
    Conftest.end_time row - Conftest.start_time row = 602.
Proof.
  assert (1000 <= 1002) as Hle by lia.
  split; [exact Hle|].
  pose proof (connection_id_fixture_spans_time "default state" "uuid"
                1000 1002 ∅ Hle) as H.
  unfold Conftest.connection_id_fixture in *. cbn [fst snd].
  destruct H as (row & Hrow & _ & Hd & _).
  exists row. split; [exact Hrow|]. rewrite Hd. reflexivity.
Defined.

(** *** The fixture [init] *)

Lemma init_run (body : AttrStore -> outcome unit * AttrStore)
    (binds : PyVal -> outcome unit) (tmp : string) (w : World) :
  let db := VPath (String.append tmp "/supa.db") in
  let s := <["database_file" := db]> (settings w) in
  let pre := trace w ++ [EvSetAttr "database_file" db; EvInitApp s] in
  let built n := [EvThreadPoolExecutor n; EvGrpcServer;
                  EvConnectionProviderService; EvAddServicer] in
  init body binds tmp w =
  match body s with
  | (Raise e, s') => (Raise e, mkWorld (ctx_obj w) s' pre)
  | (Ok _, s') =>
      match s' !! "grpc_server_max_workers" with
      | None => (Raise (AttributeError "grpc_server_max_workers"),
                 mkWorld (ctx_obj w) s' pre)
      | Some n =>
          match max_workers_check n with
          | Raise e => (Raise e, mkWorld (ctx_obj w) s' pre)
          | Ok _ =>
              match s' !! "grpc_server_insecure_address_port" with
              | None =>
                  (Raise (AttributeError "grpc_server_insecure_address_port"),
                   mkWorld (ctx_obj w) s' (pre ++ built n))
              | Some a =>
                  match binds a with
                  | Raise e =>
                      (Raise e, mkWorld (ctx_obj w) s' (pre ++ built n))
                  | Ok _ =>
                      (Ok tt, mkWorld (ctx_obj w) s'
                                (pre ++ built n ++
                                 [EvAddInsecurePort a; EvServerStart]))
                  end
              end
          end
      end
  end.
Proof.
  cbv zeta. unfold init.
  cbv [mbind M_bind bind setattr init_app getattr emit ThreadPoolExecutor
       add_insecure_port call].
  cbn [settings trace ctx_obj].
  destruct (body _) as [[[]|e] s'];
    [destruct (s' !! "grpc_server_max_workers") as [n|] eqn:Hn;
       [destruct (max_workers_check n) as [[]|e] eqn:Hc;
          [destruct (s' !! "grpc_server_insecure_address_port") as [a|]
             eqn:Ha; [destruct (binds a) as [[]|e] eqn:Hb|]|]|]|];
    repeat (progress (cbn [settings trace ctx_obj snd fst];
                      rewrite ?Hn, ?Hc, ?Ha, ?Hb));
    by rewrite <- ?app_assoc.
Qed.

(** X13: the fixture [init] keeps the tests away from the database of the
    installation.  Whatever the global [settings] hold, [init_app] is
    called on [settings] whose [database_file] is [supa.db] in the
    temporary directory; every other attribute is as the fixture found it,
    and this write is the only one that the fixture makes, before
    [init_app]. *)
Theorem init_points_settings_at_tmp
    (body : AttrStore -> outcome unit * AttrStore)
    (binds : PyVal -> outcome unit) (tmp : string) (w : World) :
  let db := VPath (String.append tmp "/supa.db") in
  exists s post,
    trace (exec (init body binds tmp) w) =
      trace w ++ [EvSetAttr "database_file" db; EvInitApp s] ++ post /\
    s !! "database_file" = Some db /\
    (forall k, k <> "database_file" -> s !! k = settings w !! k) /\
    forallb (fun e => negb (is_write e)) post = true /\
    settings (exec (init body binds tmp) w) = (body s).2.
Proof.
  cbv zeta. unfold exec. rewrite init_run. cbv zeta.
  exists (<["database_file" := VPath (String.append tmp "/supa.db")]>
            (settings w)).
  destruct (body _) as [[[]|e] s'];
    [destruct (s' !! "grpc_server_max_workers") as [n|];
       [destruct (max_workers_check n) as [[]|e];
          [destruct (s' !! "grpc_server_insecure_address_port") as [a|];
             [destruct (binds a) as [[]|e]|]|]|]|];
    cbn [snd trace settings]; eexists;
    (split; [rewrite <- ?app_assoc; cbn [app]; try reflexivity;
             by rewrite ?app_nil_r|]);
    (split; [apply lookup_insert_eq|]);
    (split; [intros k Hk; by apply lookup_insert_ne|]); by split.
Qed.

(** X14: when [init_app] returns, the fixture [init] takes the size of the
    pool and the address from [settings.grpc_server_max_workers] and
    [settings.grpc_server_insecure_address_port], as [init_app] leaves
    them.  Without the first attribute, or with a size that
    [ThreadPoolExecutor] refuses (a number that is not greater than 0, a
    value that is no number), the fixture ends with the exception and
    nothing is made.  With a size that passes, but without the second
    attribute or with an address that gRPC cannot bind, the pool, the
    server and the service are made, no port is added and the server is not
    started.  With a size that passes and an address that can be bound, the
    server is started on that pool and that address. *)
Theorem init_needs_the_grpc_server_settings
    (body : AttrStore -> outcome unit * AttrStore)
    (binds : PyVal -> outcome unit) (tmp : string)
    (w : World) (s' : AttrStore) :
  let db := VPath (String.append tmp "/supa.db") in
  let s := <["database_file" := db]> (settings w) in
  let pre := trace w ++ [EvSetAttr "database_file" db; EvInitApp s] in
  let built n := [EvThreadPoolExecutor n; EvGrpcServer;
                  EvConnectionProviderService; EvAddServicer] in
  let run := init body binds tmp in
  body s = (Ok tt, s') ->
  (s' !! "grpc_server_max_workers" = None ->
   result run w = Raise (AttributeError "grpc_server_max_workers") /\
   trace (exec run w) = pre) /\
  (forall n e, s' !! "grpc_server_max_workers" = Some n ->
     max_workers_check n = Raise e ->
     result run w = Raise e /\ trace (exec run w) = pre) /\
  (forall n, s' !! "grpc_server_max_workers" = Some n ->
     max_workers_check n = Ok tt ->
     s' !! "grpc_server_insecure_address_port" = None ->
     result run w =
       Raise (AttributeError "grpc_server_insecure_address_port") /\
     trace (exec run w) = pre ++ built n) /\
  (forall n a e, s' !! "grpc_server_max_workers" = Some n ->
     max_workers_check n = Ok tt ->
     s' !! "grpc_server_insecure_address_port" = Some a ->
     binds a = Raise e ->
     result run w = Raise e /\ trace (exec run w) = pre ++ built n) /\
  (forall n a, s' !! "grpc_server_max_workers" = Some n ->
     max_workers_check n = Ok tt ->
     s' !! "grpc_server_insecure_address_port" = Some a ->
     binds a = Ok tt ->
     result run w = Ok tt /\
     trace (exec run w) =
       pre ++ built n ++ [EvAddInsecurePort a; EvServerStart]).
Proof.
  cbv zeta. intros Hbody. unfold result, exec. rewrite init_run. cbv zeta.
  rewrite Hbody. split; [|split; [|split; [|split]]].
  - by intros ->.
  - by intros n e -> ->.
  - by intros n -> -> ->.
  - by intros n a e -> -> -> ->.
  - by intros n a -> -> -> ->.
Qed.

Lemma init_needs_the_grpc_server_settings_witness :
  let run := init quiet_init_app any_address "/tmp/pytest-0/supa0" in
  let w := mkWorld None test_settings [] in
  let w0 := mkWorld None (<["grpc_server_max_workers" := VInt 0]>
                            test_settings) [] in
  result run w = Ok tt /\
  EvThreadPoolExecutor (VInt 8) ∈ trace (exec run w) /\
  EvServerStart ∈ trace (exec run w) /\
  result run w0 = Raise ValueError.
Proof.
  cbv zeta.
  destruct (init_needs_the_grpc_server_settings quiet_init_app any_address
              "/tmp/pytest-0/supa0" (mkWorld None test_settings []) _ eq_refl)
    as (_ & _ & _ & _ & Hok).
  destruct (Hok (VInt 8) (VStr "localhost:9090")) as [Hr Ht];
    [by vm_compute|reflexivity|by vm_compute|reflexivity|].
  destruct (init_needs_the_grpc_server_settings quiet_init_app any_address
              "/tmp/pytest-0/supa0"
              (mkWorld None (<["grpc_server_max_workers" := VInt 0]>
                               test_settings) []) _ eq_refl)
    as (_ & Hbad & _).
  destruct (Hbad (VInt 0) ValueError) as [Hr0 _];
    [by vm_compute|reflexivity|].
  split; [exact Hr|]. rewrite Ht.
  split; [apply elem_of_app; right; apply list_elem_of_here|].
  split; [|exact Hr0].
  apply elem_of_app. right. apply elem_of_app. right.
  apply list_elem_of_further, list_elem_of_here.
Defined.

End ConftestExtra.
